(** * Case Team Events: the filter engine, favorites and catalog loading of
    [src/App.tsx], embedded in Rocq.

    The React component [App] keeps its state in [useState] cells and changes
    it from callbacks ([filterEvents], [toggleFavorite], [surpriseMe],
    [loadEvents], [loadFavorites]).  Each callback is embedded as a function
    on an explicit state record; [console.log] output is an explicit list of
    log lines; the asynchronous loads are a small transition system whose
    steps are the points where the source suspends ([await]). *)

From Stdlib Require Import QArith Qround Qpower Lqa Ascii String.
From stdpp Require Import base list strings gmap.

Local Open Scope string_scope.
Local Open Scope list_scope.

(** ** JavaScript numbers

    A [number] is an IEEE double.  A finite double is embedded as the
    rational it denotes; [NaN] and the two infinities are kept apart.  The
    two zeros compare equal and are both [Finite 0].  Comparison of doubles
    is exact; what computes a number (the reading of text by [Number], the
    product in [surpriseMe]) rounds the exact result to the nearest double
    ([roundToDouble]). *)

Inductive number : Type :=
  | NaN
  | NegInfinity
  | Finite (q : Q)
  | PosInfinity.

(** IsLessThan of ECMAScript on two numbers: [None] stands for [undefined],
    the answer when an operand is [NaN]. *)
Definition isLessThan (x y : number) : option bool :=
  match x, y with
  | NaN, _ | _, NaN => None
  | NegInfinity, NegInfinity => Some false
  | NegInfinity, _ => Some true
  | _, NegInfinity => Some false
  | PosInfinity, _ => Some false
  | _, PosInfinity => Some true
  | Finite p, Finite q => Some (negb (Qle_bool q p))
  end.

(** [x >= y] is [!(x < y)], and [false] when the comparison is undefined. *)
Definition geq (x y : number) : bool :=
  match isLessThan x y with
  | Some false => true
  | _ => false
  end.

(** [x <= y] is [!(y < x)], and [false] when the comparison is undefined. *)
Definition leq (x y : number) : bool :=
  match isLessThan y x with
  | Some false => true
  | _ => false
  end.

(** The order of the extended reals, the mathematical reading of [<=] in the
    specification.  [NaN] is related to nothing. *)
Inductive num_le : number -> number -> Prop :=
  | num_le_finite p q : (p <= q)%Q -> num_le (Finite p) (Finite q)
  | num_le_bottom y : y <> NaN -> num_le NegInfinity y
  | num_le_top x : x <> NaN -> num_le x PosInfinity.

(** ** Rounding to a double

    The Number value for a real number: the nearest double, ties to the one
    with an even significand, infinity from [2^1024] on.  A double is
    [m * 2^k] with [|m| < 2^53] and [k >= -1074]. *)

Definition pow2 (k : Z) : Q := Qpower 2 k.

(** [floor (log2 q)] for a positive [q]. *)
Definition floorLog2 (q : Q) : Z :=
  let e := (Z.log2 (Qnum q) - Z.log2 (Zpos (Qden q)))%Z in
  if Qle_bool (pow2 e) q then e else (e - 1)%Z.

(** The nearest integer, ties to even. *)
Definition roundHalfEven (y : Q) : Z :=
  let f := Qfloor y in
  match (y - inject_Z f ?= 1 # 2)%Q with
  | Lt => f
  | Gt => (f + 1)%Z
  | Eq => if Z.even f then f else (f + 1)%Z
  end.

(** The exponent of the last place of the doubles around a positive [q]. *)
Definition quantum (q : Q) : Z := Z.max (floorLog2 q - 52) (-1074).

Definition roundPositive (q : Q) : number :=
  let k := quantum q in
  let v := (inject_Z (roundHalfEven (q * pow2 (- k))) * pow2 k)%Q in
  if Qle_bool (pow2 1024) v then PosInfinity else Finite (Qred v).

Definition roundToDouble (q : Q) : number :=
  match (q ?= 0)%Q with
  | Eq => Finite 0
  | Gt => roundPositive q
  | Lt =>
      match roundPositive (- q) with
      | Finite v => Finite (Qred (- v))
      | _ => NegInfinity
      end
  end.

(** [q] is the value of a double. *)
Definition isDouble (q : Q) : Prop :=
  exists m k : Z,
    (Z.abs m < 2 ^ 53)%Z /\ (-1074 <= k <= 971)%Z
    /\ (q == inject_Z m * pow2 k)%Q.

(** ** Text

    A JavaScript string is a sequence of UTF-16 code units; a [string] here
    holds the same text in UTF-8.  For well-formed text the two agree on
    which strings occur in which, so [includes] may be taken on the
    bytes; what depends on the characters ([toLowerCase], the white space
    that [Number] trims) is taken on the code points. *)

Definition bytesOf (s : string) : list N :=
  map N_of_ascii (list_ascii_of_string s).

Definition ofBytes (l : list N) : string :=
  string_of_list_ascii (map ascii_of_N l).

Definition continuation (b : N) : bool := ((128 <=? b) && (b <=? 191))%N.

(** The code points of UTF-8 text; a byte that starts no well-formed
    sequence gives U+FFFD. *)
Fixpoint decodeUtf8 (l : list N) : list N :=
  match l with
  | [] => []
  | b0 :: l1 =>
      if (b0 <? 128)%N then b0 :: decodeUtf8 l1
      else
        match l1 with
        | [] => [65533%N]
        | b1 :: l2 =>
            if ((194 <=? b0) && (b0 <=? 223))%N && continuation b1 then
              ((b0 - 192) * 64 + (b1 - 128))%N :: decodeUtf8 l2
            else
              match l2 with
              | [] => 65533%N :: decodeUtf8 l1
              | b2 :: l3 =>
                  if ((224 <=? b0) && (b0 <=? 239))%N
                     && continuation b1 && continuation b2 then
                    ((b0 - 224) * 4096 + (b1 - 128) * 64 + (b2 - 128))%N
                      :: decodeUtf8 l3
                  else
                    match l3 with
                    | [] => 65533%N :: decodeUtf8 l1
                    | b3 :: l4 =>
                        if ((240 <=? b0) && (b0 <=? 244))%N
                           && continuation b1 && continuation b2
                           && continuation b3 then
                          ((b0 - 240) * 262144 + (b1 - 128) * 4096
                           + (b2 - 128) * 64 + (b3 - 128))%N
                            :: decodeUtf8 l4
                        else 65533%N :: decodeUtf8 l1
                    end
              end
        end
  end.

Definition encodeUtf8 (c : N) : list N :=
  (if c <? 128 then [c]
   else if c <? 2048 then [192 + c / 64; 128 + c mod 64]
   else if c <? 65536 then
     [224 + c / 4096; 128 + (c / 64) mod 64; 128 + c mod 64]
   else
     [240 + c / 262144; 128 + (c / 4096) mod 64; 128 + (c / 64) mod 64;
      128 + c mod 64])%N.

Definition codePoints (s : string) : list N := decodeUtf8 (bytesOf s).

Definition fromCodePoints (l : list N) : string :=
  ofBytes (concat (map encodeUtf8 l)).

(** Every byte of the string is an ASCII character. *)
Definition isAscii (s : string) : Prop :=
  Forall (fun b => (b < 128)%N) (bytesOf s).

(** ** JavaScript values held by a numeric field, and [Number(...)]

    The interface [Event] declares [costPerPerson] and [durationHours] as
    [number], but the records come from the database untyped and the filter
    coerces them with [Number(...)], so the embedding keeps the value that is
    really there. *)

Inductive JsValue : Type :=
  | JsUndefined
  | JsNull
  | JsBoolean (b : bool)
  | JsNumber (n : number)
  | JsString (s : string).

Module StringToNumber.
(** StringToNumber of ECMAScript: white space and line terminators are
    trimmed, the empty string is [0], then a StrNumericLiteral is expected:
    a binary, octal or hexadecimal integer, or an optionally signed
    [Infinity] or decimal literal with optional fraction and exponent.
    Anything else is [NaN].  The result is the literal's mathematical value
    rounded to a double. *)

(** WhiteSpace and LineTerminator: TAB, LF, VT, FF, CR, SP, NBSP, the space
    separators of Unicode, LS, PS and ZWNBSP. *)
Definition isWhiteSpace (c : N) : bool :=
  (((9 <=? c) && (c <=? 13)) || (c =? 32) || (c =? 160) || (c =? 5760)
   || ((8192 <=? c) && (c <=? 8202)) || (c =? 8232) || (c =? 8233)
   || (c =? 8239) || (c =? 8287) || (c =? 12288) || (c =? 65279))%N.

Fixpoint trimStart (l : list N) : list N :=
  match l with
  | c :: l' => if isWhiteSpace c then trimStart l' else l
  | [] => []
  end.

Definition trim (l : list N) : list N :=
  rev (trimStart (rev (trimStart l))).

Definition digitValue (base : N) (c : N) : option N :=
  let v :=
    if ((48 <=? c) && (c <=? 57))%N then Some (c - 48)%N
    else if ((97 <=? c) && (c <=? 102))%N then Some (c - 87)%N
    else if ((65 <=? c) && (c <=? 70))%N then Some (c - 55)%N
    else None in
  match v with
  | Some d => if (d <? base)%N then Some d else None
  | None => None
  end.

(** The longest run of digits at the head of [l]: its value on top of
    [acc], how many digits were read, and the rest. *)
Fixpoint digits (base : N) (acc : N) (count : nat) (l : list N)
  : N * nat * list N :=
  match l with
  | c :: l' =>
      match digitValue base c with
      | Some d => digits base (acc * base + d)%N (S count) l'
      | None => (acc, count, l)
      end
  | [] => (acc, count, [])
  end.

Definition integerLiteral (base : N) (l : list N) : number :=
  match digits base 0 0 l with
  | (v, S _, []) => roundToDouble (inject_Z (Z.of_N v))
  | _ => NaN
  end.

Definition pow10 (e : Z) : Q := Qpower (inject_Z 10) e.

Definition exponentPart (l : list N) : option Z :=
  match l with
  | [] => Some 0%Z
  | c :: l' =>
      if ((c =? 101) || (c =? 69))%N then
        let '(neg, body) :=
          match l' with
          | s :: l'' =>
              if (s =? 45)%N then (true, l'')
              else if (s =? 43)%N then (false, l'')
              else (false, l')
          | [] => (false, l')
          end in
        match digits 10 0 0 body with
        | (v, S _, []) => Some (if neg then (- Z.of_N v)%Z else Z.of_N v)
        | _ => None
        end
      else None
  end.

Definition unsignedDecimal (l : list N) : option Q :=
  let '(ip, n1, rest1) := digits 10 0 0 l in
  let '(fp, n2, rest2) :=
    match rest1 with
    | c :: r => if (c =? 46)%N then digits 10 0 0 r
                else (0%N, 0%nat, rest1)
    | [] => (0%N, 0%nat, rest1)
    end in
  match (n1 + n2)%nat with
  | O => None
  | S _ =>
      match exponentPart rest2 with
      | Some e =>
          Some ((inject_Z (Z.of_N ip)
                 + inject_Z (Z.of_N fp) * pow10 (- Z.of_nat n2))
                * pow10 e)%Q
      | None => None
      end
  end.

Definition infinityText : list N := codePoints "Infinity".

Definition decimalLiteral (l : list N) : number :=
  let '(neg, body) :=
    match l with
    | s :: l' =>
        if (s =? 45)%N then (true, l')
        else if (s =? 43)%N then (false, l')
        else (false, l)
    | [] => (false, l)
    end in
  if bool_decide (body = infinityText) then
    if neg then NegInfinity else PosInfinity
  else
    match unsignedDecimal body with
    | Some q => roundToDouble (if neg then - q else q)
    | None => NaN
    end.

Definition parse (s : string) : number :=
  match trim (codePoints s) with
  | [] => Finite 0
  | z :: p :: body =>
      if (z =? 48)%N then
        match p with
        | 120%N | 88%N => integerLiteral 16 body
        | 111%N | 79%N => integerLiteral 8 body
        | 98%N | 66%N => integerLiteral 2 body
        | _ => decimalLiteral (z :: p :: body)
        end
      else decimalLiteral (z :: p :: body)
  | l => decimalLiteral l
  end.
End StringToNumber.

(** [Number(v)]: ToNumber of ECMAScript on the values a field can hold. *)
Definition Number (v : JsValue) : number :=
  match v with
  | JsUndefined => NaN
  | JsNull => Finite 0
  | JsBoolean b => if b then Finite 1 else Finite 0
  | JsNumber n => n
  | JsString s => StringToNumber.parse s
  end.

(** ** [toLowerCase]

    [String.prototype.toLowerCase] is the toLowercase algorithm of the
    Unicode Default Case Conversion: every code point goes to its lowercase
    mapping, U+0130 goes to U+0069 U+0307 (SpecialCasing.txt), and capital
    sigma goes to final sigma in the Final_Sigma context: after a cased
    letter and case-ignorable code points, and not before case-ignorable
    code points and a cased letter. *)

(** The simple lowercase mappings of the Unicode Character Database
    (UnicodeData.txt, version 14.0): the code points [lo], [lo + step], ...,
    [hi] map to [to], [to + step], ... *)
Definition lowerRanges : list (N * N * N * N) :=
  [(65, 90, 1, 97); (192, 214, 1, 224); (216, 222, 1, 248); (256, 302, 2, 257);
   (306, 310, 2, 307); (313, 327, 2, 314); (330, 374, 2, 331); (376, 376, 1,
   255); (377, 381, 2, 378); (385, 385, 1, 595); (386, 388, 2, 387); (390, 390,
   1, 596); (391, 391, 1, 392); (393, 394, 1, 598); (395, 395, 1, 396); (398,
   398, 1, 477); (399, 399, 1, 601); (400, 400, 1, 603); (401, 401, 1, 402);
   (403, 403, 1, 608); (404, 404, 1, 611); (406, 406, 1, 617); (407, 407, 1,
   616); (408, 408, 1, 409); (412, 412, 1, 623); (413, 413, 1, 626); (415, 415,
   1, 629); (416, 420, 2, 417); (422, 422, 1, 640); (423, 423, 1, 424); (425,
   425, 1, 643); (428, 428, 1, 429); (430, 430, 1, 648); (431, 431, 1, 432);
   (433, 434, 1, 650); (435, 437, 2, 436); (439, 439, 1, 658); (440, 440, 1,
   441); (444, 444, 1, 445); (452, 452, 1, 454); (453, 453, 1, 454); (455, 455,
   1, 457); (456, 456, 1, 457); (458, 458, 1, 460); (459, 475, 2, 460); (478,
   494, 2, 479); (497, 497, 1, 499); (498, 500, 2, 499); (502, 502, 1, 405);
   (503, 503, 1, 447); (504, 542, 2, 505); (544, 544, 1, 414); (546, 562, 2,
   547); (570, 570, 1, 11365); (571, 571, 1, 572); (573, 573, 1, 410); (574,
   574, 1, 11366); (577, 577, 1, 578); (579, 579, 1, 384); (580, 580, 1, 649);
   (581, 581, 1, 652); (582, 590, 2, 583); (880, 882, 2, 881); (886, 886, 1,
   887); (895, 895, 1, 1011); (902, 902, 1, 940); (904, 906, 1, 941); (908,
   908, 1, 972); (910, 911, 1, 973); (913, 929, 1, 945); (931, 939, 1, 963);
   (975, 975, 1, 983); (984, 1006, 2, 985); (1012, 1012, 1, 952); (1015, 1015,
   1, 1016); (1017, 1017, 1, 1010); (1018, 1018, 1, 1019); (1021, 1023, 1,
   891); (1024, 1039, 1, 1104); (1040, 1071, 1, 1072); (1120, 1152, 2, 1121);
   (1162, 1214, 2, 1163); (1216, 1216, 1, 1231); (1217, 1229, 2, 1218); (1232,
   1326, 2, 1233); (1329, 1366, 1, 1377); (4256, 4293, 1, 11520); (4295, 4295,
   1, 11559); (4301, 4301, 1, 11565); (5024, 5103, 1, 43888); (5104, 5109, 1,
   5112); (7312, 7354, 1, 4304); (7357, 7359, 1, 4349); (7680, 7828, 2, 7681);
   (7838, 7838, 1, 223); (7840, 7934, 2, 7841); (7944, 7951, 1, 7936); (7960,
   7965, 1, 7952); (7976, 7983, 1, 7968); (7992, 7999, 1, 7984); (8008, 8013,
   1, 8000); (8025, 8031, 2, 8017); (8040, 8047, 1, 8032); (8072, 8079, 1,
   8064); (8088, 8095, 1, 8080); (8104, 8111, 1, 8096); (8120, 8121, 1, 8112);
   (8122, 8123, 1, 8048); (8124, 8124, 1, 8115); (8136, 8139, 1, 8050); (8140,
   8140, 1, 8131); (8152, 8153, 1, 8144); (8154, 8155, 1, 8054); (8168, 8169,
   1, 8160); (8170, 8171, 1, 8058); (8172, 8172, 1, 8165); (8184, 8185, 1,
   8056); (8186, 8187, 1, 8060); (8188, 8188, 1, 8179); (8486, 8486, 1, 969);
   (8490, 8490, 1, 107); (8491, 8491, 1, 229); (8498, 8498, 1, 8526); (8544,
   8559, 1, 8560); (8579, 8579, 1, 8580); (9398, 9423, 1, 9424); (11264, 11311,
   1, 11312); (11360, 11360, 1, 11361); (11362, 11362, 1, 619); (11363, 11363,
   1, 7549); (11364, 11364, 1, 637); (11367, 11371, 2, 11368); (11373, 11373,
   1, 593); (11374, 11374, 1, 625); (11375, 11375, 1, 592); (11376, 11376, 1,
   594); (11378, 11378, 1, 11379); (11381, 11381, 1, 11382); (11390, 11391, 1,
   575); (11392, 11490, 2, 11393); (11499, 11501, 2, 11500); (11506, 11506, 1,
   11507); (42560, 42604, 2, 42561); (42624, 42650, 2, 42625); (42786, 42798,
   2, 42787); (42802, 42862, 2, 42803); (42873, 42875, 2, 42874); (42877,
   42877, 1, 7545); (42878, 42886, 2, 42879); (42891, 42891, 1, 42892); (42893,
   42893, 1, 613); (42896, 42898, 2, 42897); (42902, 42920, 2, 42903); (42922,
   42922, 1, 614); (42923, 42923, 1, 604); (42924, 42924, 1, 609); (42925,
   42925, 1, 620); (42926, 42926, 1, 618); (42928, 42928, 1, 670); (42929,
   42929, 1, 647); (42930, 42930, 1, 669); (42931, 42931, 1, 43859); (42932,
   42946, 2, 42933); (42948, 42948, 1, 42900); (42949, 42949, 1, 642); (42950,
   42950, 1, 7566); (42951, 42953, 2, 42952); (42960, 42960, 1, 42961); (42966,
   42968, 2, 42967); (42997, 42997, 1, 42998); (65313, 65338, 1, 65345);
   (66560, 66599, 1, 66600); (66736, 66771, 1, 66776); (66928, 66964, 2,
   66967); (66929, 66937, 2, 66968); (66941, 66953, 2, 66980); (66957, 66961,
   2, 66996); (66965, 66965, 1, 67004); (68736, 68786, 1, 68800); (71840,
   71871, 1, 71872); (93760, 93791, 1, 93792); (125184, 125217, 1, 125218)]%N.

(** The cased letters that are not case-ignorable (DerivedCoreProperties.txt),
    as closed ranges. *)
Definition casedRanges : list (N * N) :=
  [(65, 90); (97, 122); (170, 170); (181, 181); (186, 186); (192, 214); (216,
   246); (248, 442); (444, 447); (452, 659); (661, 687); (880, 883); (886,
   887); (891, 893); (895, 895); (902, 902); (904, 906); (908, 908); (910,
   929); (931, 1013); (1015, 1153); (1162, 1327); (1329, 1366); (1376, 1416);
   (4256, 4293); (4295, 4295); (4301, 4301); (4304, 4346); (4349, 4351); (5024,
   5109); (5112, 5117); (7296, 7304); (7312, 7354); (7357, 7359); (7424, 7467);
   (7531, 7543); (7545, 7578); (7680, 7957); (7960, 7965); (7968, 8005); (8008,
   8013); (8016, 8023); (8025, 8025); (8027, 8027); (8029, 8029); (8031, 8061);
   (8064, 8116); (8118, 8124); (8126, 8126); (8130, 8132); (8134, 8140); (8144,
   8147); (8150, 8155); (8160, 8172); (8178, 8180); (8182, 8188); (8450, 8450);
   (8455, 8455); (8458, 8467); (8469, 8469); (8473, 8477); (8484, 8484); (8486,
   8486); (8488, 8488); (8490, 8493); (8495, 8500); (8505, 8505); (8508, 8511);
   (8517, 8521); (8526, 8526); (8544, 8575); (8579, 8580); (9398, 9449);
   (11264, 11387); (11390, 11492); (11499, 11502); (11506, 11507); (11520,
   11557); (11559, 11559); (11565, 11565); (42560, 42605); (42624, 42651);
   (42786, 42863); (42865, 42887); (42891, 42894); (42896, 42954); (42960,
   42961); (42963, 42963); (42965, 42969); (42997, 42998); (43002, 43002);
   (43824, 43866); (43872, 43880); (43888, 43967); (64256, 64262); (64275,
   64279); (65313, 65338); (65345, 65370); (66560, 66639); (66736, 66771);
   (66776, 66811); (66928, 66938); (66940, 66954); (66956, 66962); (66964,
   66965); (66967, 66977); (66979, 66993); (66995, 67001); (67003, 67004);
   (68736, 68786); (68800, 68850); (71840, 71903); (93760, 93823); (119808,
   119892); (119894, 119964); (119966, 119967); (119970, 119970); (119973,
   119974); (119977, 119980); (119982, 119993); (119995, 119995); (119997,
   120003); (120005, 120069); (120071, 120074); (120077, 120084); (120086,
   120092); (120094, 120121); (120123, 120126); (120128, 120132); (120134,
   120134); (120138, 120144); (120146, 120485); (120488, 120512); (120514,
   120538); (120540, 120570); (120572, 120596); (120598, 120628); (120630,
   120654); (120656, 120686); (120688, 120712); (120714, 120744); (120746,
   120770); (120772, 120779); (122624, 122633); (122635, 122654); (125184,
   125251); (127280, 127305); (127312, 127337); (127344, 127369)]%N.

(** The case-ignorable code points, as closed ranges. *)
Definition ignorableRanges : list (N * N) :=
  [(39, 39); (46, 46); (58, 58); (94, 94); (96, 96); (168, 168); (173, 173);
   (175, 175); (180, 180); (183, 184); (688, 879); (884, 885); (890, 890);
   (900, 901); (903, 903); (1155, 1161); (1369, 1369); (1375, 1375); (1425,
   1469); (1471, 1471); (1473, 1474); (1476, 1477); (1479, 1479); (1524, 1524);
   (1536, 1541); (1552, 1562); (1564, 1564); (1600, 1600); (1611, 1631); (1648,
   1648); (1750, 1757); (1759, 1768); (1770, 1773); (1807, 1807); (1809, 1809);
   (1840, 1866); (1958, 1968); (2027, 2037); (2042, 2042); (2045, 2045); (2070,
   2093); (2137, 2139); (2184, 2184); (2192, 2193); (2200, 2207); (2249, 2306);
   (2362, 2362); (2364, 2364); (2369, 2376); (2381, 2381); (2385, 2391); (2402,
   2403); (2417, 2417); (2433, 2433); (2492, 2492); (2497, 2500); (2509, 2509);
   (2530, 2531); (2558, 2558); (2561, 2562); (2620, 2620); (2625, 2626); (2631,
   2632); (2635, 2637); (2641, 2641); (2672, 2673); (2677, 2677); (2689, 2690);
   (2748, 2748); (2753, 2757); (2759, 2760); (2765, 2765); (2786, 2787); (2810,
   2815); (2817, 2817); (2876, 2876); (2879, 2879); (2881, 2884); (2893, 2893);
   (2901, 2902); (2914, 2915); (2946, 2946); (3008, 3008); (3021, 3021); (3072,
   3072); (3076, 3076); (3132, 3132); (3134, 3136); (3142, 3144); (3146, 3149);
   (3157, 3158); (3170, 3171); (3201, 3201); (3260, 3260); (3263, 3263); (3270,
   3270); (3276, 3277); (3298, 3299); (3328, 3329); (3387, 3388); (3393, 3396);
   (3405, 3405); (3426, 3427); (3457, 3457); (3530, 3530); (3538, 3540); (3542,
   3542); (3633, 3633); (3636, 3642); (3654, 3662); (3761, 3761); (3764, 3772);
   (3782, 3782); (3784, 3789); (3864, 3865); (3893, 3893); (3895, 3895); (3897,
   3897); (3953, 3966); (3968, 3972); (3974, 3975); (3981, 3991); (3993, 4028);
   (4038, 4038); (4141, 4144); (4146, 4151); (4153, 4154); (4157, 4158); (4184,
   4185); (4190, 4192); (4209, 4212); (4226, 4226); (4229, 4230); (4237, 4237);
   (4253, 4253); (4348, 4348); (4957, 4959); (5906, 5908); (5938, 5939); (5970,
   5971); (6002, 6003); (6068, 6069); (6071, 6077); (6086, 6086); (6089, 6099);
   (6103, 6103); (6109, 6109); (6155, 6159); (6211, 6211); (6277, 6278); (6313,
   6313); (6432, 6434); (6439, 6440); (6450, 6450); (6457, 6459); (6679, 6680);
   (6683, 6683); (6742, 6742); (6744, 6750); (6752, 6752); (6754, 6754); (6757,
   6764); (6771, 6780); (6783, 6783); (6823, 6823); (6832, 6862); (6912, 6915);
   (6964, 6964); (6966, 6970); (6972, 6972); (6978, 6978); (7019, 7027); (7040,
   7041); (7074, 7077); (7080, 7081); (7083, 7085); (7142, 7142); (7144, 7145);
   (7149, 7149); (7151, 7153); (7212, 7219); (7222, 7223); (7288, 7293); (7376,
   7378); (7380, 7392); (7394, 7400); (7405, 7405); (7412, 7412); (7416, 7417);
   (7468, 7530); (7544, 7544); (7579, 7679); (8125, 8125); (8127, 8129); (8141,
   8143); (8157, 8159); (8173, 8175); (8189, 8190); (8203, 8207); (8216, 8217);
   (8228, 8228); (8231, 8231); (8234, 8238); (8288, 8292); (8294, 8303); (8305,
   8305); (8319, 8319); (8336, 8348); (8400, 8432); (11388, 11389); (11503,
   11505); (11631, 11631); (11647, 11647); (11744, 11775); (11823, 11823);
   (12293, 12293); (12330, 12333); (12337, 12341); (12347, 12347); (12441,
   12446); (12540, 12542); (40981, 40981); (42232, 42237); (42508, 42508);
   (42607, 42610); (42612, 42621); (42623, 42623); (42652, 42655); (42736,
   42737); (42752, 42785); (42864, 42864); (42888, 42890); (42994, 42996);
   (43000, 43001); (43010, 43010); (43014, 43014); (43019, 43019); (43045,
   43046); (43052, 43052); (43204, 43205); (43232, 43249); (43263, 43263);
   (43302, 43309); (43335, 43345); (43392, 43394); (43443, 43443); (43446,
   43449); (43452, 43453); (43471, 43471); (43493, 43494); (43561, 43566);
   (43569, 43570); (43573, 43574); (43587, 43587); (43596, 43596); (43632,
   43632); (43644, 43644); (43696, 43696); (43698, 43700); (43703, 43704);
   (43710, 43711); (43713, 43713); (43741, 43741); (43756, 43757); (43763,
   43764); (43766, 43766); (43867, 43871); (43881, 43883); (44005, 44005);
   (44008, 44008); (44013, 44013); (64286, 64286); (64434, 64450); (65024,
   65039); (65043, 65043); (65056, 65071); (65106, 65106); (65109, 65109);
   (65279, 65279); (65287, 65287); (65294, 65294); (65306, 65306); (65342,
   65342); (65344, 65344); (65392, 65392); (65438, 65439); (65507, 65507);
   (65529, 65531); (66045, 66045); (66272, 66272); (66422, 66426); (67456,
   67461); (67463, 67504); (67506, 67514); (68097, 68099); (68101, 68102);
   (68108, 68111); (68152, 68154); (68159, 68159); (68325, 68326); (68900,
   68903); (69291, 69292); (69446, 69456); (69506, 69509); (69633, 69633);
   (69688, 69702); (69744, 69744); (69747, 69748); (69759, 69761); (69811,
   69814); (69817, 69818); (69821, 69821); (69826, 69826); (69837, 69837);
   (69888, 69890); (69927, 69931); (69933, 69940); (70003, 70003); (70016,
   70017); (70070, 70078); (70089, 70092); (70095, 70095); (70191, 70193);
   (70196, 70196); (70198, 70199); (70206, 70206); (70367, 70367); (70371,
   70378); (70400, 70401); (70459, 70460); (70464, 70464); (70502, 70508);
   (70512, 70516); (70712, 70719); (70722, 70724); (70726, 70726); (70750,
   70750); (70835, 70840); (70842, 70842); (70847, 70848); (70850, 70851);
   (71090, 71093); (71100, 71101); (71103, 71104); (71132, 71133); (71219,
   71226); (71229, 71229); (71231, 71232); (71339, 71339); (71341, 71341);
   (71344, 71349); (71351, 71351); (71453, 71455); (71458, 71461); (71463,
   71467); (71727, 71735); (71737, 71738); (71995, 71996); (71998, 71998);
   (72003, 72003); (72148, 72151); (72154, 72155); (72160, 72160); (72193,
   72202); (72243, 72248); (72251, 72254); (72263, 72263); (72273, 72278);
   (72281, 72283); (72330, 72342); (72344, 72345); (72752, 72758); (72760,
   72765); (72767, 72767); (72850, 72871); (72874, 72880); (72882, 72883);
   (72885, 72886); (73009, 73014); (73018, 73018); (73020, 73021); (73023,
   73029); (73031, 73031); (73104, 73105); (73109, 73109); (73111, 73111);
   (73459, 73460); (78896, 78904); (92912, 92916); (92976, 92982); (92992,
   92995); (94031, 94031); (94095, 94111); (94176, 94177); (94179, 94180);
   (110576, 110579); (110581, 110587); (110589, 110590); (113821, 113822);
   (113824, 113827); (118528, 118573); (118576, 118598); (119143, 119145);
   (119155, 119170); (119173, 119179); (119210, 119213); (119362, 119364);
   (121344, 121398); (121403, 121452); (121461, 121461); (121476, 121476);
   (121499, 121503); (121505, 121519); (122880, 122886); (122888, 122904);
   (122907, 122913); (122915, 122916); (122918, 122922); (123184, 123197);
   (123566, 123566); (123628, 123631); (125136, 125142); (125252, 125259);
   (127995, 127999); (917505, 917505); (917536, 917631); (917760, 917999)]%N.

Definition inRanges (table : list (N * N)) (c : N) : bool :=
  existsb (fun '(lo, hi) => ((lo <=? c) && (c <=? hi))%N) table.

Definition cased (c : N) : bool := inRanges casedRanges c.

Definition caseIgnorable (c : N) : bool := inRanges ignorableRanges c.

Definition simpleLower (c : N) : N :=
  match
    find (fun '(lo, hi, step, _) =>
            ((lo <=? c) && (c <=? hi) && ((c - lo) mod step =? 0))%N)
      lowerRanges
  with
  | Some (lo, _, _, to) => (to + (c - lo))%N
  | None => c
  end.

Fixpoint followedByCased (l : list N) : bool :=
  match l with
  | [] => false
  | c :: l' => if caseIgnorable c then followedByCased l' else cased c
  end.

(** The lowercase of a sequence of code points; [afterCased] tells whether
    the last code point before it that is not case-ignorable is a cased
    letter. *)
Fixpoint lowerPoints (afterCased : bool) (l : list N) : list N :=
  match l with
  | [] => []
  | c :: l' =>
      (if (c =? 931)%N then
         if afterCased && negb (followedByCased l') then [962%N] else [963%N]
       else if (c =? 304)%N then [105%N; 775%N]
       else [simpleLower c])
      ++ lowerPoints (if caseIgnorable c then afterCased else cased c) l'
  end.

Definition toLowerCase (s : string) : string :=
  fromCodePoints (lowerPoints false (codePoints s)).

(** ** Strings: [includes] *)

Fixpoint startsWith (s q : string) : bool :=
  match q, s with
  | EmptyString, _ => true
  | String _ _, EmptyString => false
  | String a q', String b s' => Ascii.eqb a b && startsWith s' q'
  end.

(** [s.includes(q)]: [q] occurs in [s] at some position. *)
Fixpoint includes (s q : string) : bool :=
  startsWith s q ||
  match s with
  | EmptyString => false
  | String _ s' => includes s' q
  end.

(** [selectedCategories.includes(c)] on an array of strings. *)
Definition arrayIncludes (l : list string) (x : string) : bool :=
  existsb (String.eqb x) l.

(** ** The data model *)

Inductive City : Type := chicago | minneapolis.

(** [interface Event]; the field [id] is [event_id] here. *)
Record Event : Type := {
  event_id : string;
  name : string;
  category : string;
  description : string;
  city : string;
  idealGroupSize : string;
  durationHours : JsValue;
  costPerPerson : JsValue;
  meetingPoint : string;
  transitTips : option string;
  bookingLink : option string;
  bestMonths : string;
  accessibilityNotes : option string;
  imageUrl : string
}.

(** A row of the [events] collection as the database returns it. *)
Record RawEvent : Type := {
  raw_id : string;
  raw_name : string;
  raw_category : string;
  raw_description : string;
  raw_city : string;
  ideal_group_size : string;
  duration_hours : JsValue;
  cost_per_person : JsValue;
  meeting_point : string;
  transit_tips : option string;
  booking_link : option string;
  best_months : string;
  accessibility_notes : option string;
  image_url : string
}.

(** The signed-in user; only [user.id] is read. *)
Record User : Type := { user_id : string }.

(** A row of the [favorites] collection. *)
Record FavoriteRecord : Type := {
  fav_id : nat;
  userId : string;
  eventId : string;
  createdAt : Z
}.

(** The [useState] cells of [App]. *)
Record AppState : Type := {
  user : option User;
  loading : bool;
  selectedCity : City;
  searchQuery : string;
  events : list Event;
  filteredEvents : list Event;
  selectedEvent : option Event;
  favorites : gset string;
  isFilterOpen : bool;
  selectedCategories : list string;
  costRange : list number;
  durationRange : list number
}.

Definition initialState : AppState := {|
  user := None;
  loading := true;
  selectedCity := chicago;
  searchQuery := EmptyString;
  events := [];
  filteredEvents := [];
  selectedEvent := None;
  favorites := ∅;
  isFilterOpen := false;
  selectedCategories := [];
  costRange := [Finite 0; Finite 100];
  durationRange := [Finite 0; Finite 5]
|}.

Definition setUser (u : option User) (st : AppState) : AppState :=
  {| user := u; loading := loading st; selectedCity := selectedCity st;
     searchQuery := searchQuery st; events := events st;
     filteredEvents := filteredEvents st; selectedEvent := selectedEvent st;
     favorites := favorites st; isFilterOpen := isFilterOpen st;
     selectedCategories := selectedCategories st; costRange := costRange st;
     durationRange := durationRange st |}.

Definition setLoading (b : bool) (st : AppState) : AppState :=
  {| user := user st; loading := b; selectedCity := selectedCity st;
     searchQuery := searchQuery st; events := events st;
     filteredEvents := filteredEvents st; selectedEvent := selectedEvent st;
     favorites := favorites st; isFilterOpen := isFilterOpen st;
     selectedCategories := selectedCategories st; costRange := costRange st;
     durationRange := durationRange st |}.

Definition setSelectedCity (c : City) (st : AppState) : AppState :=
  {| user := user st; loading := loading st; selectedCity := c;
     searchQuery := searchQuery st; events := events st;
     filteredEvents := filteredEvents st; selectedEvent := selectedEvent st;
     favorites := favorites st; isFilterOpen := isFilterOpen st;
     selectedCategories := selectedCategories st; costRange := costRange st;
     durationRange := durationRange st |}.

Definition setEvents (l : list Event) (st : AppState) : AppState :=
  {| user := user st; loading := loading st; selectedCity := selectedCity st;
     searchQuery := searchQuery st; events := l;
     filteredEvents := filteredEvents st; selectedEvent := selectedEvent st;
     favorites := favorites st; isFilterOpen := isFilterOpen st;
     selectedCategories := selectedCategories st; costRange := costRange st;
     durationRange := durationRange st |}.

Definition setFilteredEvents (l : list Event) (st : AppState) : AppState :=
  {| user := user st; loading := loading st; selectedCity := selectedCity st;
     searchQuery := searchQuery st; events := events st;
     filteredEvents := l; selectedEvent := selectedEvent st;
     favorites := favorites st; isFilterOpen := isFilterOpen st;
     selectedCategories := selectedCategories st; costRange := costRange st;
     durationRange := durationRange st |}.

Definition setSelectedEvent (e : option Event) (st : AppState) : AppState :=
  {| user := user st; loading := loading st; selectedCity := selectedCity st;
     searchQuery := searchQuery st; events := events st;
     filteredEvents := filteredEvents st; selectedEvent := e;
     favorites := favorites st; isFilterOpen := isFilterOpen st;
     selectedCategories := selectedCategories st; costRange := costRange st;
     durationRange := durationRange st |}.

(** [setFavorites(prev => f(prev))]: the functional form the source uses. *)
Definition setFavorites (f : gset string -> gset string) (st : AppState)
  : AppState :=
  {| user := user st; loading := loading st; selectedCity := selectedCity st;
     searchQuery := searchQuery st; events := events st;
     filteredEvents := filteredEvents st; selectedEvent := selectedEvent st;
     favorites := f (favorites st); isFilterOpen := isFilterOpen st;
     selectedCategories := selectedCategories st; costRange := costRange st;
     durationRange := durationRange st |}.

(** The filter state alone, as the handlers of the filter sheet set it. *)
Definition setSearchQuery (q : string) (st : AppState) : AppState :=
  {| user := user st; loading := loading st; selectedCity := selectedCity st;
     searchQuery := q; events := events st;
     filteredEvents := filteredEvents st; selectedEvent := selectedEvent st;
     favorites := favorites st; isFilterOpen := isFilterOpen st;
     selectedCategories := selectedCategories st; costRange := costRange st;
     durationRange := durationRange st |}.

Definition setSelectedCategories (l : list string) (st : AppState) : AppState :=
  {| user := user st; loading := loading st; selectedCity := selectedCity st;
     searchQuery := searchQuery st; events := events st;
     filteredEvents := filteredEvents st; selectedEvent := selectedEvent st;
     favorites := favorites st; isFilterOpen := isFilterOpen st;
     selectedCategories := l; costRange := costRange st;
     durationRange := durationRange st |}.

Definition setCostRange (r : list number) (st : AppState) : AppState :=
  {| user := user st; loading := loading st; selectedCity := selectedCity st;
     searchQuery := searchQuery st; events := events st;
     filteredEvents := filteredEvents st; selectedEvent := selectedEvent st;
     favorites := favorites st; isFilterOpen := isFilterOpen st;
     selectedCategories := selectedCategories st; costRange := r;
     durationRange := durationRange st |}.

Definition setDurationRange (r : list number) (st : AppState) : AppState :=
  {| user := user st; loading := loading st; selectedCity := selectedCity st;
     searchQuery := searchQuery st; events := events st;
     filteredEvents := filteredEvents st; selectedEvent := selectedEvent st;
     favorites := favorites st; isFilterOpen := isFilterOpen st;
     selectedCategories := selectedCategories st; costRange := costRange st;
     durationRange := r |}.

(** [r[i]] on an array of numbers, read where a number is expected: an index
    out of range gives [undefined], which a comparison turns into [NaN]. *)
Definition at_index (r : list number) (i : nat) : number :=
  match r !! i with
  | Some n => n
  | None => NaN
  end.

(** ** The console *)

Inductive Level : Type := LevelLog | LevelError.

Inductive Message : Type :=
  | MsgFiltering (total : nat)
  | MsgCriteria (q : string) (cats : list string) (cost dur : list number)
  | MsgAfterSearch (before after : nat)
  | MsgAfterCategory (before after : nat)
  | MsgCostRejected (event_name : string) (cost : number) (range : list number)
  | MsgAfterCost (before after : nat)
  | MsgDurationRejected (event_name : string) (duration : number)
      (range : list number)
  | MsgAfterDuration (before after : nat)
  | MsgFiltered (count : nat)
  | MsgLoadingEvents (c : City)
  | MsgRawEvents (rows : list RawEvent)
  | MsgFormattedEvents (evs : list Event)
  | MsgAuthStateChanged (u : option User) (isLoading : bool)
  | MsgEffectTriggered (hasUser isLoading : bool)
  | MsgFailedLoadEvents
  | MsgFailedLoadFavorites
  | MsgFailedToggleFavorite.

Record LogLine : Type := { level : Level; message : Message }.

(** A computation that writes to the console. *)
Definition Console (A : Type) : Type := A * list LogLine.

Definition ret {A} (a : A) : Console A := (a, []).

Definition bind {A B} (m : Console A) (k : A -> Console B) : Console B :=
  let '(a, out1) := m in
  let '(b, out2) := k a in
  (b, out1 ++ out2).

Definition console_log (m : Message) : Console unit :=
  (tt, [{| level := LevelLog; message := m |}]).

Definition console_error (m : Message) : Console unit :=
  (tt, [{| level := LevelError; message := m |}]).

Notation "x <- m ;; k" := (bind m (fun x => k))
  (at level 100, m at level 99, k at level 200, only parsing).
Notation "m ;;; k" := (bind m (fun _ => k))
  (at level 100, k at level 200, only parsing).

(** [array.filter(callback)] with a callback that may log. *)
Fixpoint filterC {A} (f : A -> Console bool) (l : list A) : Console (list A) :=
  match l with
  | [] => ret []
  | x :: l' =>
      b <- f x ;;
      rest <- filterC f l' ;;
      ret (if b then x :: rest else rest)
  end.

(** ** [filterEvents] *)

(** A string is truthy when it is not empty. *)
Definition truthy (s : string) : bool :=
  match s with
  | EmptyString => false
  | String _ _ => true
  end.

Definition searchCallback (q : string) (event : Event) : bool :=
  includes (toLowerCase (name event)) (toLowerCase q)
  || includes (toLowerCase (description event)) (toLowerCase q)
  || includes (toLowerCase (category event)) (toLowerCase q).

Definition categoryCallback (cats : list string) (event : Event) : bool :=
  arrayIncludes cats (category event).

Definition costPasses (range : list number) (event : Event) : bool :=
  let cost := Number (costPerPerson event) in
  geq cost (at_index range 0) && leq cost (at_index range 1).

Definition durationPasses (range : list number) (event : Event) : bool :=
  let duration := Number (durationHours event) in
  geq duration (at_index range 0) && leq duration (at_index range 1).

Definition costCallback (range : list number) (event : Event) : Console bool :=
  let cost := Number (costPerPerson event) in
  let passes := costPasses range event in
  (if negb passes
   then console_log (MsgCostRejected (name event) cost range)
   else ret tt) ;;;
  ret passes.

Definition durationCallback (range : list number) (event : Event)
  : Console bool :=
  let duration := Number (durationHours event) in
  let passes := durationPasses range event in
  (if negb passes
   then console_log (MsgDurationRejected (name event) duration range)
   else ret tt) ;;;
  ret passes.

Definition filterEvents (st : AppState) : Console AppState :=
  console_log (MsgFiltering (length (events st))) ;;;
  console_log (MsgCriteria (searchQuery st) (selectedCategories st)
                 (costRange st) (durationRange st)) ;;;
  let filtered := events st in
  (* Search filter *)
  filtered <-
    (if truthy (searchQuery st) then
       let beforeSearch := length filtered in
       let filtered := filter (searchCallback (searchQuery st)) filtered in
       console_log (MsgAfterSearch beforeSearch (length filtered)) ;;;
       ret filtered
     else ret filtered) ;;
  (* Category filter *)
  filtered <-
    (if (0 <? length (selectedCategories st))%nat then
       let beforeCategory := length filtered in
       let filtered :=
         filter (categoryCallback (selectedCategories st)) filtered in
       console_log (MsgAfterCategory beforeCategory (length filtered)) ;;;
       ret filtered
     else ret filtered) ;;
  (* Cost filter *)
  let beforeCost := length filtered in
  filtered <- filterC (costCallback (costRange st)) filtered ;;
  console_log (MsgAfterCost beforeCost (length filtered)) ;;;
  (* Duration filter *)
  let beforeDuration := length filtered in
  filtered <- filterC (durationCallback (durationRange st)) filtered ;;
  console_log (MsgAfterDuration beforeDuration (length filtered)) ;;;
  console_log (MsgFiltered (length filtered)) ;;;
  ret (setFilteredEvents filtered st).

(** The visible set: what [filterEvents] leaves in [filteredEvents]. *)
Definition visible (st : AppState) : list Event :=
  filteredEvents (fst (filterEvents st)).

(** What [filterEvents] writes to the console. *)
Definition filterLog (st : AppState) : list LogLine :=
  snd (filterEvents st).

(** ** The filter engine without its console: the four passes *)

Definition searchStep (q : string) (l : list Event) : list Event :=
  if truthy q then filter (searchCallback q) l else l.

Definition categoryStep (cats : list string) (l : list Event) : list Event :=
  if (0 <? length cats)%nat then filter (categoryCallback cats) l else l.


(** [filterEvents] with its category block taken out. *)
Definition withoutCategory (st : AppState) : list Event :=
  filter (durationPasses (durationRange st))
    (filter (costPasses (costRange st))
       (searchStep (searchQuery st) (events st))).

(** The conjunction of the four tests on one event. *)
Definition keeps (st : AppState) (event : Event) : bool :=
  (negb (truthy (searchQuery st)) || searchCallback (searchQuery st) event)
  && (negb (0 <? length (selectedCategories st))%nat
      || categoryCallback (selectedCategories st) event)
  && costPasses (costRange st) event
  && durationPasses (durationRange st) event.

(** ** What the specification means by its words *)









(** [q] occurs in [s]. *)
Definition occursIn (q s : string) : Prop :=
  exists pre post : string, s = (pre ++ q ++ post)%string.

(** The text test of the code on one event: the lowercase of the query
    occurs in the lowercase of the name, the description or the category. *)
Definition lowerMatches (q : string) (event : Event) : Prop :=
  occursIn (toLowerCase q) (toLowerCase (name event))
  \/ occursIn (toLowerCase q) (toLowerCase (description event))
  \/ occursIn (toLowerCase q) (toLowerCase (category event)).

(** [n] lies in the closed interval that [range] holds. *)
Definition inRange (range : list number) (n : number) : Prop :=
  num_le (at_index range 0) n /\ num_le n (at_index range 1).

(** ** The persistence collaborator *)

(** What a call to the collaborator gives once awaited: its promise is
    resolved with a value or rejected (the [catch] branch of the caller). *)
Inductive Response (A : Type) : Type :=
  | Resolved (a : A)
  | Rejected.
Arguments Resolved {A} a.
Arguments Rejected {A}.

(** Modelled from the spec: the persistence collaborator [blink.db] of
    [./blink/client], an opaque record store with [list], [create] and
    [delete] over the collections [events] and [favorites].  [events.list]
    returns the rows of a city sorted by name; [favorites.list] the rows of a
    user, of one event when it is given; [favorites.create] stores the record
    under a fresh id; [favorites.delete] fails when the id is not found.
    Every call fails while the store cannot be reached. *)
Record Database : Type := {
  online : bool;
  eventRows : list RawEvent;
  favoriteRows : list FavoriteRecord
}.

Definition cityName (c : City) : string :=
  match c with
  | chicago => "chicago"
  | minneapolis => "minneapolis"
  end.

Fixpoint insertByName (r : RawEvent) (l : list RawEvent) : list RawEvent :=
  match l with
  | [] => [r]
  | x :: l' =>
      if String.leb (raw_name r) (raw_name x) then r :: l
      else x :: insertByName r l'
  end.

Definition sortByName (l : list RawEvent) : list RawEvent :=
  foldr insertByName [] l.

(** Modelled from the spec: [events.list({where: {city}, orderBy: {name:
    'asc'}})], the rows of the city sorted by name. *)
Definition events_list (db : Database) (c : string)
  : Response (list RawEvent) :=
  if online db
  then Resolved (sortByName
                   (filter (fun r => String.eqb (raw_city r) c) (eventRows db)))
  else Rejected.

Definition favoriteMatches (uid : string) (eid : option string)
    (r : FavoriteRecord) : bool :=
  String.eqb (userId r) uid
  && match eid with
     | Some e => String.eqb (eventId r) e
     | None => true
     end.

(** Modelled from the spec: [favorites.list({where: {userId[, eventId]}})],
    the matching rows in stored order. *)
Definition favorites_list (db : Database) (uid : string) (eid : option string)
  : Response (list FavoriteRecord) :=
  if online db
  then Resolved (filter (favoriteMatches uid eid) (favoriteRows db))
  else Rejected.

Definition freshId (rows : list FavoriteRecord) : nat :=
  S (foldr Nat.max 0%nat (map fav_id rows)).

(** Modelled from the spec: [favorites.create(record)], which stores the
    record under a fresh id and returns it. *)
Definition favorites_create (db : Database) (uid eid : string) (now : Z)
  : Response (FavoriteRecord * Database) :=
  if online db then
    let r := {| fav_id := freshId (favoriteRows db);
                userId := uid; eventId := eid; createdAt := now |} in
    Resolved (r, {| online := online db; eventRows := eventRows db;
                    favoriteRows := favoriteRows db ++ [r] |})
  else Rejected.

(** The rows without the first one stored under [i]. *)
Fixpoint removeById (i : nat) (rows : list FavoriteRecord)
  : list FavoriteRecord :=
  match rows with
  | [] => []
  | r :: rows' =>
      if (fav_id r =? i)%nat then rows' else r :: removeById i rows'
  end.

(** Modelled from the spec: [favorites.delete(id)], which fails when no
    record has that id. *)
Definition favorites_delete (db : Database) (i : nat) : Response Database :=
  if online db && existsb (fun r => (fav_id r =? i)%nat) (favoriteRows db)
  then Resolved {| online := online db; eventRows := eventRows db;
                   favoriteRows := removeById i (favoriteRows db) |}
  else Rejected.

(** The calls a callback made to the collaborator, in order. *)
Inductive DbCall : Type :=
  | CallEventsList (c : string)
  | CallFavoritesList (uid : string) (eid : option string)
  | CallFavoritesCreate (uid eid : string)
  | CallFavoritesDelete (i : nat).

(** A persistence write is a create or a delete. *)
Definition isWrite (c : DbCall) : bool :=
  match c with
  | CallFavoritesCreate _ _ | CallFavoritesDelete _ => true
  | _ => false
  end.

(** ** [toggleFavorite] *)

(** What one run of a callback leaves behind: the component state, the
    store, the calls it made and what it wrote to the console. *)
Record Outcome : Type := {
  out_state : AppState;
  out_db : Database;
  out_calls : list DbCall;
  out_console : list LogLine
}.

Definition failedToggle : list LogLine :=
  [{| level := LevelError; message := MsgFailedToggleFavorite |}].

(** One run of [toggleFavorite(eventId)] from the click to its end, no
    other callback running in between; [now] is the value of
    [new Date()]. *)
Definition toggleFavorite (now : Z) (eid : string) (st : AppState)
    (db : Database) : Outcome :=
  match user st with
  | None =>
      {| out_state := st; out_db := db; out_calls := []; out_console := [] |}
  | Some u =>
      if bool_decide (eid ∈ favorites st) then
        (* Remove from favorites *)
        match favorites_list db (user_id u) (Some eid) with
        | Resolved (r :: _) =>
            match favorites_delete db (fav_id r) with
            | Resolved db' =>
                {| out_state := setFavorites (fun prev => prev ∖ {[eid]}) st;
                   out_db := db';
                   out_calls := [CallFavoritesList (user_id u) (Some eid);
                                 CallFavoritesDelete (fav_id r)];
                   out_console := [] |}
            | Rejected =>
                {| out_state := st; out_db := db;
                   out_calls := [CallFavoritesList (user_id u) (Some eid);
                                 CallFavoritesDelete (fav_id r)];
                   out_console := failedToggle |}
            end
        | Resolved [] =>
            {| out_state := setFavorites (fun prev => prev ∖ {[eid]}) st;
               out_db := db;
               out_calls := [CallFavoritesList (user_id u) (Some eid)];
               out_console := [] |}
        | Rejected =>
            {| out_state := st; out_db := db;
               out_calls := [CallFavoritesList (user_id u) (Some eid)];
               out_console := failedToggle |}
        end
      else
        (* Add to favorites *)
        match favorites_create db (user_id u) eid now with
        | Resolved (_, db') =>
            {| out_state := setFavorites (fun prev => prev ∪ {[eid]}) st;
               out_db := db';
               out_calls := [CallFavoritesCreate (user_id u) eid];
               out_console := [] |}
        | Rejected =>
            {| out_state := st; out_db := db;
               out_calls := [CallFavoritesCreate (user_id u) eid];
               out_console := failedToggle |}
        end
  end.

(** The number of persistence writes a run made. *)
Definition writes (o : Outcome) : nat :=
  length (filter isWrite (out_calls o)).

(** The local set mirrors the store for user [u]: every favorite held
    locally has a record of that user behind it. *)
Definition mirrors (u : User) (st : AppState) (db : Database) : Prop :=
  forall eid, eid ∈ favorites st ->
    exists r, r ∈ favoriteRows db /\ userId r = user_id u /\ eventId r = eid.

(** *** A toggle between its awaits

    [toggleFavorite] is [async]: it runs to an [await], where its request
    is in flight, and resumes when the answer arrives; clicks and other
    toggles may come in between.  The membership test is made when the
    toggle starts, on the set the component shows at that moment; the
    updates of the set are functional updates of the set at the moment the
    toggle resumes. *)

Inductive Toggling : Type :=
  | AwaitingList (u : User) (eid : string)
  | AwaitingDelete (eid : string) (i : nat)
  | AwaitingCreate (u : User) (eid : string) (now : Z).

(** What the toggles have left behind so far, and the toggles that wait
    for an answer. *)
Record Session : Type := {
  sofar : Outcome;
  running : list Toggling
}.

Definition startSession (st : AppState) (db : Database) : Session :=
  {| sofar := {| out_state := st; out_db := db;
                 out_calls := []; out_console := [] |};
     running := [] |}.

Definition called (c : DbCall) (o : Outcome) : Outcome :=
  {| out_state := out_state o; out_db := out_db o;
     out_calls := out_calls o ++ [c]; out_console := out_console o |}.

Definition stored (db : Database) (o : Outcome) : Outcome :=
  {| out_state := out_state o; out_db := db;
     out_calls := out_calls o; out_console := out_console o |}.

Definition rendered (f : AppState -> AppState) (o : Outcome) : Outcome :=
  {| out_state := f (out_state o); out_db := out_db o;
     out_calls := out_calls o; out_console := out_console o |}.

Definition failed (o : Outcome) : Outcome :=
  {| out_state := out_state o; out_db := out_db o;
     out_calls := out_calls o;
     out_console := out_console o ++ failedToggle |}.

(** A click on the heart of [eid]: [toggleFavorite(eid)] up to its first
    [await]. *)
Definition click (now : Z) (eid : string) (s : Session) : Session :=
  match user (out_state (sofar s)) with
  | None => s
  | Some u =>
      if bool_decide (eid ∈ favorites (out_state (sofar s))) then
        {| sofar := called (CallFavoritesList (user_id u) (Some eid)) (sofar s);
           running := running s ++ [AwaitingList u eid] |}
      else
        {| sofar := called (CallFavoritesCreate (user_id u) eid) (sofar s);
           running := running s ++ [AwaitingCreate u eid now] |}
  end.

(** A toggle resumes with the answer of the store, up to its next [await]
    or to its end. *)
Definition resume (t : Toggling) (o : Outcome) : Outcome * option Toggling :=
  match t with
  | AwaitingList u eid =>
      match favorites_list (out_db o) (user_id u) (Some eid) with
      | Resolved (r :: _) =>
          (called (CallFavoritesDelete (fav_id r)) o,
           Some (AwaitingDelete eid (fav_id r)))
      | Resolved [] =>
          (rendered (setFavorites (fun prev => prev ∖ {[eid]})) o, None)
      | Rejected => (failed o, None)
      end
  | AwaitingDelete eid i =>
      match favorites_delete (out_db o) i with
      | Resolved db' =>
          (rendered (setFavorites (fun prev => prev ∖ {[eid]})) (stored db' o),
           None)
      | Rejected => (failed o, None)
      end
  | AwaitingCreate u eid now =>
      match favorites_create (out_db o) (user_id u) eid now with
      | Resolved (_, db') =>
          (rendered (setFavorites (fun prev => prev ∪ {[eid]})) (stored db' o),
           None)
      | Rejected => (failed o, None)
      end
  end.

(** The answer for the [i]-th waiting toggle arrives. *)
Definition settle (i : nat) (s : Session) : Session :=
  match running s !! i with
  | None => s
  | Some t =>
      match resume t (sofar s) with
      | (o, Some t') => {| sofar := o; running := <[i := t']> (running s) |}
      | (o, None) => {| sofar := o; running := delete i (running s) |}
      end
  end.

(** ** [surpriseMe] *)

(** [Math.floor]. *)
Definition floor (x : number) : number :=
  match x with
  | Finite q => Finite (inject_Z (Qfloor q))
  | _ => x
  end.

(** [array[i]] for a number [i]: the element at [i] when [i] is an integer
    inside the array, [undefined] otherwise. *)
Definition arrayAt {A} (l : list A) (i : number) : option A :=
  match i with
  | Finite q =>
      if Qeq_bool q (inject_Z (Qfloor q)) && (0 <=? Qfloor q)%Z
      then l !! Z.to_nat (Qfloor q)
      else None
  | _ => None
  end.

(** [surpriseMe], with the value [r] of the double that [Math.random()]
    returned.  The product is a product of doubles: the exact product,
    rounded. *)
Definition surpriseMe (r : Q) (st : AppState) : AppState :=
  if (0 <? length (filteredEvents st))%nat then
    let randomEvent :=
      arrayAt (filteredEvents st)
        (floor
           (roundToDouble
              (r * inject_Z (Z.of_nat (length (filteredEvents st)))))) in
    setSelectedEvent randomEvent st
  else st.

(** ** [loadEvents] and [loadFavorites]

    An [async] callback runs to its [await], where the request is in flight,
    and resumes when the response arrives. *)

Inductive Pending : Type :=
  | PendingEvents (c : City) (response : Response (list RawEvent))
  | PendingFavorites (response : Response (list FavoriteRecord)).

(** Convert snake_case to camelCase. *)
Definition formatEvent (event : RawEvent) : Event := {|
  event_id := raw_id event;
  name := raw_name event;
  category := raw_category event;
  description := raw_description event;
  city := raw_city event;
  idealGroupSize := ideal_group_size event;
  durationHours := duration_hours event;
  costPerPerson := cost_per_person event;
  meetingPoint := meeting_point event;
  transitTips := transit_tips event;
  bookingLink := booking_link event;
  bestMonths := best_months event;
  accessibilityNotes := accessibility_notes event;
  imageUrl := image_url event
|}.

(** [loadEvents] up to its [await]. *)
Definition loadEvents_request (db : Database) (st : AppState)
  : Console Pending :=
  console_log (MsgLoadingEvents (selectedCity st)) ;;;
  ret (PendingEvents (selectedCity st)
         (events_list db
            (match selectedCity st with
             | chicago => "chicago"
             | minneapolis => "minneapolis"
             end))).

(** [loadEvents] from its [await] on. *)
Definition loadEvents_resume (response : Response (list RawEvent))
    (st : AppState) : Console AppState :=
  match response with
  | Resolved result =>
      console_log (MsgRawEvents result) ;;;
      let formattedEvents := map formatEvent result in
      console_log (MsgFormattedEvents formattedEvents) ;;;
      ret (setEvents formattedEvents st)
  | Rejected =>
      console_error MsgFailedLoadEvents ;;;
      ret st
  end.

(** [loadFavorites] up to its [await]; no request when nobody is signed in. *)
Definition loadFavorites_request (db : Database) (st : AppState)
  : option Pending :=
  match user st with
  | None => None
  | Some u => Some (PendingFavorites (favorites_list db (user_id u) None))
  end.

(** [loadFavorites] from its [await] on. *)
Definition loadFavorites_resume (response : Response (list FavoriteRecord))
    (st : AppState) : Console AppState :=
  match response with
  | Resolved result =>
      ret (setFavorites (fun _ => list_to_set (map eventId result)) st)
  | Rejected =>
      console_error MsgFailedLoadFavorites ;;;
      ret st
  end.

(** One run of [loadFavorites] to its end. *)
Definition loadFavorites (db : Database) (st : AppState) : Console AppState :=
  match loadFavorites_request db st with
  | None => ret st
  | Some (PendingFavorites response) => loadFavorites_resume response st
  | Some (PendingEvents _ _) => ret st
  end.

(** One run of [loadEvents] to its end. *)
Definition loadEvents (db : Database) (st : AppState) : Console AppState :=
  p <- loadEvents_request db st ;;
  match p with
  | PendingEvents _ response => loadEvents_resume response st
  | PendingFavorites _ => ret st
  end.

(** ** The component as a transition system *)

(** The component, the store it talks to, the requests in flight in the
    order they were made, and the console. *)
Record System : Type := {
  app : AppState;
  store : Database;
  inflight : list Pending;
  console : list LogLine
}.

Inductive Action : Type :=
  | AuthStateChanged (u : option User) (isLoading : bool)
  | SelectCity (c : City)
  | Deliver (i : nat).

(** The effect "Load events when city changes": it runs after a render in
    which the user, the loading flag or the city changed. *)
Definition loadEffect (sys : System) : System :=
  let effectTriggered :=
    {| level := LevelLog;
       message := MsgEffectTriggered
                    (match user (app sys) with Some _ => true | None => false end)
                    (loading (app sys)) |} in
  match user (app sys) with
  | Some _ =>
      if loading (app sys) then
        {| app := app sys; store := store sys; inflight := inflight sys;
           console := console sys ++ [effectTriggered] |}
      else
        let '(p, out) := loadEvents_request (store sys) (app sys) in
        {| app := app sys; store := store sys;
           inflight :=
             inflight sys ++ p ::
               match loadFavorites_request (store sys) (app sys) with
               | Some q => [q]
               | None => []
               end;
           console := console sys ++ effectTriggered :: out |}
  | None =>
      {| app := app sys; store := store sys; inflight := inflight sys;
         console := console sys ++ [effectTriggered] |}
  end.

(** The effect "Filter events when search or filters change": it runs after
    a render in which the catalog or the filter state changed. *)
Definition filterEffect (sys : System) : System :=
  let '(st, out) := filterEvents (app sys) in
  {| app := st; store := store sys; inflight := inflight sys;
     console := console sys ++ out |}.

Definition withApp (st : AppState) (out : list LogLine) (sys : System)
  : System :=
  {| app := st; store := store sys; inflight := inflight sys;
     console := console sys ++ out |}.

Definition city_eqb (c d : City) : bool :=
  match c, d with
  | chicago, chicago | minneapolis, minneapolis => true
  | _, _ => false
  end.

(** One step of the component.  The auth callback sets the user and the
    loading flag, after which the load effect runs (every notification is
    taken to bring a state React sees as changed).  The city buttons are
    rendered only for a signed-in user once loading is over, and selecting
    the city already selected renders nothing anew.  [Deliver i] resumes the
    callback whose request is the [i]-th in flight. *)
Definition step (a : Action) (sys : System) : System :=
  match a with
  | AuthStateChanged u isLoading =>
      loadEffect
        (withApp (setLoading isLoading (setUser u (app sys)))
           [{| level := LevelLog; message := MsgAuthStateChanged u isLoading |}]
           sys)
  | SelectCity c =>
      match user (app sys) with
      | Some _ =>
          if loading (app sys) || city_eqb c (selectedCity (app sys)) then sys
          else loadEffect (withApp (setSelectedCity c (app sys)) [] sys)
      | None => sys
      end
  | Deliver i =>
      match inflight sys !! i with
      | Some (PendingEvents _ response) =>
          let '(st, out) := loadEvents_resume response (app sys) in
          let sys' :=
            {| app := st; store := store sys;
               inflight := delete i (inflight sys);
               console := console sys ++ out |} in
          match response with
          | Resolved _ => filterEffect sys'
          | Rejected => sys'
          end
      | Some (PendingFavorites response) =>
          let '(st, out) := loadFavorites_resume response (app sys) in
          {| app := st; store := store sys;
             inflight := delete i (inflight sys);
             console := console sys ++ out |}
      | None => sys
      end
  end.

(** The actions of a trace, first to last. *)
Definition run (trace : list Action) (sys : System) : System :=
  foldl (fun s a => step a s) sys trace.

(** The component once mounted: the effects have run on the initial state. *)
Definition mount (db : Database) : System :=
  filterEffect
    (loadEffect
       {| app := initialState; store := db; inflight := []; console := [] |}).

(** The last events request in flight, if any. *)
Fixpoint lastEventsRequest (l : list Pending)
  : option (City * Response (list RawEvent)) :=
  match l with
  | [] => None
  | p :: l' =>
      match lastEventsRequest l' with
      | Some x => Some x
      | None =>
          match p with
          | PendingEvents c r => Some (c, r)
          | PendingFavorites _ => None
          end
      end
  end.

(** The catalog of a city as [loadEvents] stores it. *)
Definition catalog (db : Database) (c : City) : list Event :=
  map formatEvent
    (sortByName
       (filter (fun r => String.eqb (raw_city r) (cityName c)) (eventRows db))).

(** Responses arrive in the order the requests were made: every delivery
    is of the oldest request in flight. *)
Definition deliversOldest (a : Action) : Prop :=
  match a with
  | Deliver i => i = 0%nat
  | _ => True
  end.

Definition inOrder (trace : list Action) : Prop := Forall deliversOldest trace.
(** ** Widening one bound of one range

    [widens st st'] holds when [st'] is [st] with one of the four bounds
    moved outwards and everything else as it was. *)
Inductive widens : AppState -> AppState -> Prop :=
  | widen_cost_min st lo :
      num_le lo (at_index (costRange st) 0) ->
      widens st (setCostRange (<[0%nat := lo]> (costRange st)) st)
  | widen_cost_max st hi :
      num_le (at_index (costRange st) 1) hi ->
      widens st (setCostRange (<[1%nat := hi]> (costRange st)) st)
  | widen_duration_min st lo :
      num_le lo (at_index (durationRange st) 0) ->
      widens st (setDurationRange (<[0%nat := lo]> (durationRange st)) st)
  | widen_duration_max st hi :
      num_le (at_index (durationRange st) 1) hi ->
      widens st (setDurationRange (<[1%nat := hi]> (durationRange st)) st).

(** ** Data quality, in the words of the specification *)

(** The event a console line is about, if it is about one. *)
Definition lineEvent (l : LogLine) : option string :=
  match message l with
  | MsgCostRejected n _ _ | MsgDurationRejected n _ _ => Some n
  | _ => None
  end.

(** An error was reported on the console. *)
Definition reportsError (out : list LogLine) : Prop :=
  exists l, l ∈ out /\ level l = LevelError.

(** Nothing on the console is about the event called [n]. *)
Definition silentAbout (n : string) (out : list LogLine) : Prop :=
  forall l, l ∈ out -> lineEvent l <> Some n.

(** Every line on the console is a plain [console.log] line. *)
Definition quiet (out : list LogLine) : Prop :=
  Forall (fun l => level l = LevelLog) out.

(** The catalog is in step with the selected city: the last events request
    in flight, if there is one, is the one for the selected city, and if
    there is none the catalog of a signed-in user is that of the selected
    city. *)
Definition inStep (db : Database) (sys : System) : Prop :=
  store sys = db
  /\ match lastEventsRequest (inflight sys) with
     | Some (c, r) =>
         c = selectedCity (app sys) /\ r = events_list db (cityName c)
     | None =>
         user (app sys) <> None -> loading (app sys) = false ->
         events (app sys) = catalog db (selectedCity (app sys))
     end.

(** ** Sample data *)

Module Sample.
Definition event (i n c d : string) (cost duration : JsValue) : Event := {|
  event_id := i; name := n; category := c; description := d;
  city := "chicago"; idealGroupSize := "8-12";
  durationHours := duration; costPerPerson := cost;
  meetingPoint := "Lobby"; transitTips := None; bookingLink := None;
  bestMonths := "May-September"; accessibilityNotes := None;
  imageUrl := "https://example.com/image.jpg"
|}.

(** Example 1 of the specification. *)
Definition dinner : Event :=
  event "e1" "Deep Dish Dinner" "Food" "Pizza for the whole team"
    (JsNumber (Finite 10)) (JsNumber (Finite 2)).

Definition ballgame : Event :=
  event "e2" "Ballpark Tour" "Sports" "A tour behind the scenes"
    (JsNumber (Finite 90)) (JsNumber (Finite 1)).

Definition example1 : AppState :=
  setCostRange [Finite 0; Finite 50] (setEvents [dinner; ballgame] initialState).

(** Example 2 of the specification. *)
Definition river : Event :=
  event "e3" "River Day" "Outdoor/Tour" "Kayaking on the Chicago River"
    (JsNumber (Finite 45)) (JsNumber (Finite 2.5)).

Definition example2 : AppState :=
  setSearchQuery "kayak" (setEvents [dinner; river] initialState).

(** Example 1 with the numbers stored as text. *)
Definition dinnerText : Event :=
  event "e1" "Deep Dish Dinner" "Food" "Pizza for the whole team"
    (JsString "10") (JsString " 2.0 ").

Definition ballgameText : Event :=
  event "e2" "Ballpark Tour" "Sports" "A tour behind the scenes"
    (JsString "90") (JsString "1e0").

Definition example1Text : AppState :=
  setCostRange [Finite 0; Finite 50]
    (setEvents [dinnerText; ballgameText] initialState).

(** A cost whose text is just above 100 and denotes the double 100. *)
Definition borderline : Event :=
  event "e8" "Gala Dinner" "Food" "Black tie"
    (JsString "100.00000000000000001") (JsNumber (Finite 3)).



(** Records whose cost is not a number: text that is no numeral, and the
    database's null. *)
Definition garbled : Event :=
  event "e4" "Improv Night" "Entertainment" "Comedy workshop"
    (JsString "abc") (JsNumber (Finite 2)).

Definition missing : Event :=
  event "e5" "Museum Walk" "Culture/Arts" "Guided visit"
    JsNull (JsNumber (Finite 2)).

Definition pricey : Event :=
  event "e6" "Skyline Cruise" "Outdoor/Tour" "Boat tour at sunset"
    (JsNumber (Finite 250)) (JsNumber (Finite 2)).

Definition quality : AppState :=
  setEvents [garbled; missing; pricey; dinner] initialState.

Definition alice : User := {| user_id := "alice" |}.
Definition bob : User := {| user_id := "bob" |}.

Definition row (i n c : string) : RawEvent := {|
  raw_id := i; raw_name := n; raw_category := "Food";
  raw_description := "Dinner"; raw_city := c; ideal_group_size := "8-12";
  duration_hours := JsNumber (Finite 2);
  cost_per_person := JsNumber (Finite 10);
  meeting_point := "Lobby"; transit_tips := None; booking_link := None;
  best_months := "All year"; accessibility_notes := None;
  image_url := "https://example.com/image.jpg"
|}.

(** A store with one event per city and one favorite of alice. *)
Definition db : Database := {|
  online := true;
  eventRows := [row "c1" "Deep Dish Dinner" "chicago";
                row "m1" "Juicy Lucy Lunch" "minneapolis"];
  favoriteRows := [{| fav_id := 1; userId := "alice"; eventId := "c1";
                      createdAt := 1700000000000 |}]
|}.

(** Alice is signed in and her events and favorites have arrived. *)
Definition settled : System :=
  run [AuthStateChanged (Some alice) false; Deliver 0; Deliver 0] (mount db).

(** Alice is signed in, switches to Minneapolis, and the four responses
    arrive in the order of their requests. *)
Definition orderly : list Action :=
  [AuthStateChanged (Some alice) false; SelectCity minneapolis;
   Deliver 0; Deliver 0; Deliver 0; Deliver 0].

(** Alice signs in, her events and favorites arrive, she signs out, and
    bob signs in; bob's two requests are still in flight. *)
Definition handover : System :=
  run [AuthStateChanged (Some alice) false; Deliver 0; Deliver 0;
       AuthStateChanged None false; AuthStateChanged (Some bob) false]
    (mount db).

(** Alice signs in, her events and favorites arrive, she signs out. *)
Definition signedOut : System :=
  run [AuthStateChanged (Some alice) false; Deliver 0; Deliver 0;
       AuthStateChanged None false]
    (mount db).

(** A signed-in user switches from Chicago to Minneapolis; the response
    for Minneapolis arrives first, the one for Chicago after it. *)
Definition overtaken : System :=
  run [AuthStateChanged (Some alice) false; SelectCity minneapolis;
       Deliver 2; Deliver 0]
    (mount db).
End Sample.

(** ** The category universe and the handlers of the filter sheet *)

(** [[...new Set(array)]]: a [Set] keeps its elements in the order in which
    they were first added, so spreading it gives the distinct elements of
    the array in order of first occurrence.  [seen] is the set built so
    far. *)
Fixpoint setOf (seen : list string) (l : list string) : list string :=
  match l with
  | [] => seen
  | x :: l' => setOf (if arrayIncludes seen x then seen else seen ++ [x]) l'
  end.

(** [const categories = [...new Set(events.map(e => e.category))]]. *)
Definition categories (st : AppState) : list string :=
  setOf [] (map category (events st)).

(** [onCheckedChange] of the checkbox of category [c]. *)
Definition onCheckedChange (c : string) (checked : bool) (st : AppState)
  : AppState :=
  if checked then
    setSelectedCategories (selectedCategories st ++ [c]) st
  else
    setSelectedCategories
      (filter (fun d => negb (String.eqb d c)) (selectedCategories st)) st.

(** A click on the checkbox of [c]: the box shows
    [selectedCategories.includes(c)] and reports the opposite. *)
Definition clickCheckbox (c : string) (st : AppState) : AppState :=
  onCheckedChange c (negb (arrayIncludes (selectedCategories st) c)) st.

(** [onClick] of the button "Clear Filters". *)
Definition clearFilters (st : AppState) : AppState :=
  setDurationRange [Finite 0; Finite 5]
    (setCostRange [Finite 0; Finite 100]
       (setSelectedCategories []
          (setSearchQuery EmptyString st))).

(** ** What [App] renders *)

Inductive Screen : Type := LoadingScreen | SignInScreen | MainScreen.

(** The two early returns of the render function and the main view. *)
Definition screen (st : AppState) : Screen :=
  if loading st then LoadingScreen
  else match user st with
       | None => SignInScreen
       | Some _ => MainScreen
       end.

(** ** The favorites set and the store in agreement

    Record ids are unique, a user has at most one record per event, and
    the local set holds exactly the events the user has a record for. *)
Definition ownedBy (u : User) (r : FavoriteRecord) : bool :=
  String.eqb (userId r) (user_id u).

Definition inSync (u : User) (st : AppState) (db : Database) : Prop :=
  NoDup (map fav_id (favoriteRows db))
  /\ NoDup (map eventId (filter (ownedBy u) (favoriteRows db)))
  /\ forall eid,
       eid ∈ favorites st <->
       exists r, r ∈ favoriteRows db /\ userId r = user_id u /\ eventId r = eid.

(** The console line of the cost pass for an event it rejects, and that of
    the duration pass. *)
Definition costRejection (range : list number) (e : Event) : LogLine :=
  {| level := LevelLog;
     message := MsgCostRejected (name e) (Number (costPerPerson e)) range |}.

Definition durationRejection (range : list number) (e : Event) : LogLine :=
  {| level := LevelLog;
     message :=
       MsgDurationRejected (name e) (Number (durationHours e)) range |}.

(** The response of a request in flight is a rejection. *)
Definition rejected (p : Pending) : bool :=
  match p with
  | PendingEvents _ Rejected | PendingFavorites Rejected => true
  | _ => false
  end.

(** The action does not sign a user in: it is no auth notification with a
    user and loading over. *)
Definition noSignIn (a : Action) : Prop :=
  match a with
  | AuthStateChanged (Some _) false => False
  | _ => True
  end.

Module Scenario.
Definition yoga : Event :=
  Sample.event "e7" "Rooftop Yoga" "Food" "Stretch, then brunch"
    (JsNumber (Finite 20)) (JsNumber (Finite 1.5)).

(** A catalog with a repeated category, every category selected. *)
Definition allSelected : AppState :=
  setSelectedCategories ["Sports"; "Food"; "Outdoor/Tour"]
    (setEvents [Sample.dinner; Sample.river; yoga; Sample.ballgame]
       initialState).

(** The same catalog with one category selected. *)
Definition foodOnly : AppState :=
  setSelectedCategories ["Food"]
    (setEvents [Sample.dinner; Sample.river; yoga; Sample.ballgame]
       initialState).

(** A store that cannot be reached. *)
Definition offline : Database := {|
  online := false;
  eventRows := eventRows Sample.db;
  favoriteRows := favoriteRows Sample.db
|}.

(** Alice signs in while the store cannot be reached. *)
Definition stranded : System :=
  run [AuthStateChanged (Some Sample.alice) false] (mount offline).
(** An inverted cost range. *)
Definition inverted : AppState :=
  setCostRange [Finite 60; Finite 40]
    (setEvents [Sample.dinner; Sample.river] initialState).

(** Clicks and responses while nobody is signed in. *)
Definition anonymous : list Action :=
  [AuthStateChanged None true; AuthStateChanged None false;
   SelectCity minneapolis; Deliver 0].
End Scenario.
(** ** Numbers: the comparisons decide the order *)

Lemma leq_spec x y : leq x y = true <-> num_le x y.
Proof.
  destruct x as [| |p|], y as [| |q|]; unfold leq; simpl;
    try (split; [discriminate | inversion 1; congruence]);
    try (split; [intros _; constructor; discriminate | reflexivity]).
  destruct (Qle_bool p q) eqn:E; simpl.
  - split; [intros _; constructor; by apply Qle_bool_iff | done].
  - split; [discriminate | inversion 1 as [? ? Hle| |]; subst].
    apply Qle_bool_iff in Hle. congruence.
Qed.

Lemma geq_spec x y : geq x y = true <-> num_le y x.
Proof.
  destruct x as [| |p|], y as [| |q|]; unfold geq; simpl;
    try (split; [discriminate | inversion 1; congruence]);
    try (split; [intros _; constructor; discriminate | reflexivity]).
  destruct (Qle_bool q p) eqn:E; simpl.
  - split; [intros _; constructor; by apply Qle_bool_iff | done].
  - split; [discriminate | inversion 1 as [? ? Hle| |]; subst].
    apply Qle_bool_iff in Hle. congruence.
Qed.

Lemma num_le_trans x y z : num_le x y -> num_le y z -> num_le x z.
Proof.
  intros Hxy Hyz. destruct Hxy as [p q Hpq|y Hy|x Hx].
  - inversion Hyz as [? r Hqr| |]; subst.
    + constructor. by apply Qle_trans with q.
    + by constructor.
  - inversion Hyz; subst; constructor; congruence.
  - inversion Hyz; subst; by constructor.
Qed.

Lemma costPasses_spec range event :
  costPasses range event <-> inRange range (Number (costPerPerson event)).
Proof.
  unfold costPasses, inRange. rewrite andb_True, !Is_true_true.
  by rewrite geq_spec, leq_spec.
Qed.

Lemma durationPasses_spec range event :
  durationPasses range event <-> inRange range (Number (durationHours event)).
Proof.
  unfold durationPasses, inRange. rewrite andb_True, !Is_true_true.
  by rewrite geq_spec, leq_spec.
Qed.

(** ** The console does not change what a filter keeps *)

Lemma filterC_fst {A} (f : A -> Console bool) (l : list A) :
  fst (filterC f l) = filter (fun x => fst (f x)) l.
Proof.
  induction l as [|x l IH]; [done|].
  simpl. unfold bind. destruct (f x) as [b out1] eqn:Ef.
  destruct (filterC f l) as [rest out2]. simpl in *. subst rest.
  rewrite filter_cons. rewrite Ef. by destruct b.
Qed.

Lemma costCallback_fst range event :
  fst (costCallback range event) = costPasses range event.
Proof. unfold costCallback, bind. by destruct (negb _). Qed.

Lemma durationCallback_fst range event :
  fst (durationCallback range event) = durationPasses range event.
Proof. unfold durationCallback, bind. by destruct (negb _). Qed.

Lemma filterC_cost range l :
  fst (filterC (costCallback range) l) = filter (costPasses range) l.
Proof.
  rewrite filterC_fst. apply list_filter_iff. intros e.
  by rewrite costCallback_fst.
Qed.

Lemma filterC_duration range l :
  fst (filterC (durationCallback range) l) = filter (durationPasses range) l.
Proof.
  rewrite filterC_fst. apply list_filter_iff. intros e.
  by rewrite durationCallback_fst.
Qed.

Lemma fst_bind {A B} (m : Console A) (k : A -> Console B) :
  fst (bind m k) = fst (k (fst m)).
Proof. unfold bind. destruct m as [a o]. simpl. by destruct (k a). Qed.

(** The visible set is the four passes in the order of the source. *)
Lemma visible_passes st :
  visible st =
  filter (durationPasses (durationRange st))
    (filter (costPasses (costRange st))
       (categoryStep (selectedCategories st)
          (searchStep (searchQuery st) (events st)))).
Proof.
  unfold visible, filterEvents.
  rewrite !fst_bind. simpl.
  rewrite filterC_duration, filterC_cost. f_equal. f_equal.
  unfold categoryStep, searchStep.
  destruct (truthy (searchQuery st)), (0 <? length (selectedCategories st))%nat;
    by rewrite ?fst_bind.
Qed.

Lemma searchStep_keeps q l :
  searchStep q l = filter (fun e => negb (truthy q) || searchCallback q e) l.
Proof.
  unfold searchStep. destruct (truthy q); simpl; [done|].
  induction l as [|x l IH]; [done|].
  rewrite filter_cons_True by done. by rewrite <- IH.
Qed.

Lemma categoryStep_keeps cats l :
  categoryStep cats l =
  filter (fun e => negb (0 <? length cats)%nat || categoryCallback cats e) l.
Proof.
  unfold categoryStep. destruct (0 <? length cats)%nat; simpl; [done|].
  induction l as [|x l IH]; [done|].
  rewrite filter_cons_True by done. by rewrite <- IH.
Qed.

(** The visible set is one pass with the conjunction of the four tests. *)
Lemma visible_keeps st : visible st = filter (keeps st) (events st).
Proof.
  rewrite visible_passes, searchStep_keeps, categoryStep_keeps.
  rewrite !list_filter_filter. apply list_filter_iff. intros e.
  unfold keeps. rewrite !andb_True. tauto.
Qed.

Lemma filter_weaken_sublist {A} (P Q : A -> Prop)
    `{!forall x, Decision (P x)} `{!forall x, Decision (Q x)} (l : list A) :
  (forall x, x ∈ l -> P x -> Q x) -> filter P l `sublist_of` filter Q l.
Proof.
  induction l as [|x l IH]; intros Himp; [done|].
  assert (filter P l `sublist_of` filter Q l) as IH'.
  { apply IH. intros y Hy. apply Himp. by right. }
  rewrite !filter_cons.
  destruct (decide (P x)) as [HP|HP].
  - rewrite decide_True by (apply Himp; [left | done]). by constructor.
  - destruct (decide (Q x)); [by constructor | done].
Qed.

(** ** Strings: [includes] finds substrings, [toLowerCase] folds case *)









Lemma startsWith_spec (s q : string) :
  startsWith s q = true <-> exists post : string, s = (q ++ post)%string.
Proof.
  revert s. induction q as [|a q IH]; intros s.
  - destruct s; simpl; split; eauto.
  - destruct s as [|b s]; simpl.
    + split; [discriminate | intros [post E]; discriminate].
    + rewrite andb_true_iff, IH. split.
      * intros [Eab [post ->]]. apply Ascii.eqb_eq in Eab as ->. eauto.
      * intros [post E]. injection E as -> ->.
        split; [apply Ascii.eqb_refl | eauto].
Qed.

Lemma includes_spec (s q : string) :
  includes s q = true <->
  exists pre post : string, s = (pre ++ q ++ post)%string.
Proof.
  induction s as [|c s IH].
  - cbn [includes]. rewrite orb_false_r, startsWith_spec. split.
    + intros [post E]. by exists EmptyString, post.
    + intros (pre & post & E). destruct pre; [eauto | discriminate].
  - cbn [includes]. rewrite orb_true_iff, startsWith_spec, IH. split.
    + intros [[post E]|(pre & post & E)].
      * by exists EmptyString, post.
      * exists (String c pre), post. simpl. by rewrite E.
    + intros (pre & post & E). destruct pre as [|d pre]; simpl in E.
      * left. eauto.
      * right. injection E as -> ->. eauto.
Qed.


(** The test of the search block, as a proposition. *)
Lemma searchCallback_spec q event :
  searchCallback q event <-> lowerMatches q event.
Proof.
  unfold searchCallback, lowerMatches, occursIn.
  rewrite !orb_True, !Is_true_true, !includes_spec. tauto.
Qed.

(** *** [toLowerCase] on ASCII text *)








Lemma bytesOf_app (s t : string) :
  bytesOf (s ++ t)%string = bytesOf s ++ bytesOf t.
Proof.
  unfold bytesOf. induction s as [|a s IH]; [done|].
  change (String a s ++ t)%string with (String a (s ++ t)%string).
  simpl. by rewrite IH.
Qed.

Lemma isAscii_app (s t : string) :
  isAscii s -> isAscii t -> isAscii (s ++ t)%string.
Proof.
  unfold isAscii. rewrite bytesOf_app, Forall_app. tauto.
Qed.


Lemma truthy_spec s : truthy s = false <-> s = EmptyString.
Proof. by destruct s. Qed.

Lemma arrayIncludes_spec l x : arrayIncludes l x <-> x ∈ l.
Proof.
  unfold arrayIncludes. rewrite Is_true_true, existsb_exists. split.
  - intros (y & Hy & E). apply String.eqb_eq in E as ->.
    by apply list_elem_of_In.
  - intros H. exists x. split; [by apply list_elem_of_In | apply String.eqb_refl].
Qed.

(** *** [toLowerCase] around ASCII text *)











(** ** The filter engine *)

Lemma sublist_filter_mono {A} (P : A -> Prop) `{!forall x, Decision (P x)}
    (l1 l2 : list A) :
  l1 `sublist_of` l2 -> filter P l1 `sublist_of` filter P l2.
Proof.
  induction 1 as [|x l1 l2 _ IH|x l1 l2 _ IH]; [done| |].
  - rewrite !filter_cons. destruct (decide (P x)); [by constructor | done].
  - rewrite filter_cons. destruct (decide (P x)); [by constructor | done].
Qed.

Lemma categoryStep_elem cats l e :
  e ∈ categoryStep cats l <-> e ∈ l /\ (cats = [] \/ category e ∈ cats).
Proof.
  unfold categoryStep. destruct cats as [|c cats].
  - simpl. split; [auto | tauto].
  - replace (0 <? length (c :: cats))%nat with true by done.
    rewrite list_elem_of_filter. unfold categoryCallback.
    rewrite arrayIncludes_spec. split; [tauto | intros [? [?|?]]; done].
Qed.

Lemma searchStep_elem q l e :
  e ∈ searchStep q l <-> e ∈ l /\ (q = EmptyString \/ lowerMatches q e).
Proof.
  unfold searchStep. destruct q as [|c q].
  - simpl. split; [auto | tauto].
  - replace (truthy (String c q)) with true by done.
    rewrite list_elem_of_filter, searchCallback_spec.
    split; [tauto | intros [? [?|?]]; done].
Qed.

(** Each event of the visible set passes the four tests of the
    specification, and each event of the catalog that passes is visible. *)
Lemma visible_elem st e :
  e ∈ visible st <->
  e ∈ events st
  /\ (searchQuery st = EmptyString \/ lowerMatches (searchQuery st) e)
  /\ (selectedCategories st = [] \/ category e ∈ selectedCategories st)
  /\ inRange (costRange st) (Number (costPerPerson e))
  /\ inRange (durationRange st) (Number (durationHours e)).
Proof.
  rewrite visible_passes, !list_elem_of_filter, categoryStep_elem,
    searchStep_elem, costPasses_spec, durationPasses_spec.
  tauto.
Qed.


Lemma withoutCategory_elem st e :
  e ∈ withoutCategory st <->
  e ∈ events st
  /\ (searchQuery st = EmptyString \/ lowerMatches (searchQuery st) e)
  /\ inRange (costRange st) (Number (costPerPerson e))
  /\ inRange (durationRange st) (Number (durationHours e)).
Proof.
  unfold withoutCategory.
  rewrite !list_elem_of_filter, searchStep_elem, costPasses_spec,
    durationPasses_spec.
  tauto.
Qed.

(** C1: the cost pass keeps an event exactly when
    [costRange[0] <= cost <= costRange[1]], the duration pass exactly when
    [durationRange[0] <= duration <= durationRange[1]], all four bounds
    included; so the visible set is what the two earlier passes leave, cut
    down to the events inside both closed intervals.  The cost and the
    duration are the field itself when it is a number and the double its
    text denotes when it is text: [10] for ["10"], [100] for
    ["100.00000000000000001"], [0] for the empty text, [NaN] for text that
    is no numeral.  On the catalog of Example 1 with
    [costRange = [0, 50]] the result is the first event only, also when the
    numbers are stored as text. *)
Theorem C1_range_filters_inclusive :
  (forall range l e,
      e ∈ fst (filterC (costCallback range) l) <->
      e ∈ l /\ num_le (at_index range 0) (Number (costPerPerson e))
            /\ num_le (Number (costPerPerson e)) (at_index range 1))
  /\ (forall range l e,
      e ∈ fst (filterC (durationCallback range) l) <->
      e ∈ l /\ num_le (at_index range 0) (Number (durationHours e))
            /\ num_le (Number (durationHours e)) (at_index range 1))
  /\ (forall st e,
      e ∈ visible st <->
      e ∈ categoryStep (selectedCategories st)
            (searchStep (searchQuery st) (events st))
      /\ inRange (costRange st) (Number (costPerPerson e))
      /\ inRange (durationRange st) (Number (durationHours e)))
  /\ (forall lo hi c : Q,
      inRange [Finite lo; Finite hi] (Finite c) <-> (lo <= c /\ c <= hi)%Q)
  /\ visible Sample.example1 = [Sample.dinner]
  /\ (forall n, Number (JsNumber n) = n)
  /\ (forall (lo hi c : Q) (i n cat d : string) (duration : JsValue),
      costPasses [Finite lo; Finite hi]
        (Sample.event i n cat d (JsNumber (Finite c)) duration) = true
      <-> (lo <= c /\ c <= hi)%Q)
  /\ (forall (lo hi c : Q) (i n cat d : string) (cost : JsValue),
      durationPasses [Finite lo; Finite hi]
        (Sample.event i n cat d cost (JsNumber (Finite c))) = true
      <-> (lo <= c /\ c <= hi)%Q)
  /\ map (fun s => Number (JsString s))
       ["10"; "90"; " 2.0 "; "1e0"; "12.5"; "0x1F"; "-3"; ".5";
        "100.00000000000000001"; "0.1"; "1e400"; EmptyString; "  ";
        "abc"; "12px"; "1,5"]
     = [Finite 10; Finite 90; Finite 2; Finite 1; Finite (25 # 2); Finite 31;
        Finite (-3); Finite (1 # 2); Finite 100;
        Finite (3602879701896397 # 36028797018963968); PosInfinity;
        Finite 0; Finite 0; NaN; NaN; NaN]
  /\ visible Sample.example1Text = [Sample.dinnerText]
  /\ visible (setEvents [Sample.borderline] initialState) = [Sample.borderline].
Proof.
  assert (forall lo hi c : Q,
    inRange [Finite lo; Finite hi] (Finite c) <-> (lo <= c /\ c <= hi)%Q)
    as Hfin.
  { intros lo hi c. unfold inRange, at_index. simpl. split.
    - intros [H1 H2]. inversion H1; inversion H2; by subst.
    - intros [H1 H2]. split; by constructor. }
  split; [|split; [|split; [|split; [|split; [|split; [|split; [|split;
    [|split; [|split]]]]]]]]].
  - intros range l e.
    rewrite filterC_cost, list_elem_of_filter, costPasses_spec.
    unfold inRange. tauto.
  - intros range l e.
    rewrite filterC_duration, list_elem_of_filter, durationPasses_spec.
    unfold inRange. tauto.
  - intros st e.
    rewrite visible_passes, !list_elem_of_filter, costPasses_spec,
      durationPasses_spec. tauto.
  - exact Hfin.
  - reflexivity.
  - reflexivity.
  - intros lo hi c i n cat d duration.
    rewrite <- Is_true_true, costPasses_spec. apply Hfin.
  - intros lo hi c i n cat d cost.
    rewrite <- Is_true_true, durationPasses_spec. apply Hfin.
  - vm_compute. reflexivity.
  - vm_compute. reflexivity.
  - vm_compute. reflexivity.
Qed.




(** C3: with a category selection that is not empty the visible set keeps,
    of the events the other passes keep, exactly those whose category is
    selected; with the empty selection the result is that of not filtering
    by category at all. *)
Theorem C3_category_filter :
  (forall st,
      visible st =
      match selectedCategories st with
      | [] => withoutCategory st
      | _ :: _ =>
          filter (fun e => category e ∈ selectedCategories st)
            (withoutCategory st)
      end)
  /\ (forall st, visible (setSelectedCategories [] st) = withoutCategory st)
  /\ (forall st e,
      e ∈ visible st <->
      e ∈ withoutCategory st
      /\ (selectedCategories st = [] \/ category e ∈ selectedCategories st)).
Proof.
  split; [|split].
  - intros st. rewrite visible_passes. unfold withoutCategory, categoryStep.
    destruct (selectedCategories st) as [|c cats] eqn:E; [done|].
    replace (0 <? length (c :: cats))%nat with true by done.
    rewrite !list_filter_filter. apply list_filter_iff. intros e.
    unfold categoryCallback. rewrite arrayIncludes_spec. tauto.
  - intros st. by rewrite visible_passes.
  - intros st e. rewrite visible_elem, withoutCategory_elem. tauto.
Qed.

(** C4: the visible set is a subsequence of the catalog: its events are
    events of the catalog, in the order of the catalog, none more often
    than in the catalog. *)
Theorem C4_visible_is_subsequence :
  forall st,
    visible st `sublist_of` events st
    /\ (forall e, e ∈ visible st -> e ∈ events st)
    /\ (forall (P : Event -> Prop) (dec : forall x, Decision (P x)),
          length (filter P (visible st)) <= length (filter P (events st))).
Proof.
  intros st.
  assert (visible st `sublist_of` events st) as Hsub.
  { rewrite visible_keeps. apply sublist_filter. }
  split; [done|]. split.
  - intros e He. rewrite visible_keeps in He.
    by apply list_elem_of_filter in He as [_ He].
  - intros P dec. by apply sublist_length, sublist_filter_mono.
Qed.

Lemma at_index_insert_0 (r : list number) (x y : number) :
  num_le x (at_index r 0) -> at_index (<[0%nat := y]> r) 0 = y.
Proof. destruct r; [by inversion 1 | done]. Qed.

Lemma at_index_insert_1 (r : list number) (x y : number) :
  num_le (at_index r 1) x -> at_index (<[1%nat := y]> r) 1 = y.
Proof. destruct r as [|a [|b r]]; by inversion 1. Qed.

Lemma at_index_insert_0_1 (r : list number) (y : number) :
  at_index (<[0%nat := y]> r) 1 = at_index r 1.
Proof. by destruct r. Qed.

Lemma at_index_insert_1_0 (r : list number) (y : number) :
  at_index (<[1%nat := y]> r) 0 = at_index r 0.
Proof. by destruct r as [|a [|b r]]. Qed.

Lemma inRange_widen_min r lo n :
  num_le lo (at_index r 0) -> inRange r n -> inRange (<[0%nat := lo]> r) n.
Proof.
  intros Hlo [H0 H1]. unfold inRange.
  rewrite (at_index_insert_0 r lo lo Hlo), at_index_insert_0_1.
  split; [by apply num_le_trans with (at_index r 0) | done].
Qed.

Lemma inRange_widen_max r hi n :
  num_le (at_index r 1) hi -> inRange r n -> inRange (<[1%nat := hi]> r) n.
Proof.
  intros Hhi [H0 H1]. unfold inRange.
  rewrite (at_index_insert_1 r hi hi Hhi), at_index_insert_1_0.
  split; [done | by apply num_le_trans with (at_index r 1)].
Qed.

(** C5: widening one bound of the cost range or of the duration range, the
    rest of the filter state and the catalog being the same, never loses an
    event: the old visible set is a subsequence of the new one. *)
Theorem C5_widening_is_monotone :
  forall st st',
    widens st st' ->
    visible st `sublist_of` visible st'
    /\ (forall e, e ∈ visible st -> e ∈ visible st')
    /\ length (visible st) <= length (visible st').
Proof.
  intros st st' Hw.
  assert (forall e, e ∈ visible st -> e ∈ visible st') as Hin.
  { intros e. rewrite !visible_elem.
    destruct Hw as [st lo Hlo|st hi Hhi|st lo Hlo|st hi Hhi]; simpl;
      intros (He & Hq & Hc & Hcost & Hdur); repeat split; try done;
      try apply Hcost; try apply Hdur;
      first [ by apply inRange_widen_min | by apply inRange_widen_max ]. }
  assert (visible st `sublist_of` visible st') as Hsub.
  { rewrite !visible_keeps.
    replace (events st') with (events st) by (by destruct Hw).
    apply filter_weaken_sublist. intros e He Hk.
    assert (e ∈ visible st) as Hv.
    { rewrite visible_keeps. by apply list_elem_of_filter. }
    apply Hin in Hv. rewrite visible_keeps in Hv.
    by apply list_elem_of_filter in Hv as [Hv _]. }
  split; [done|]. split; [done | by apply sublist_length].
Qed.

(** Raising the upper cost bound of Example 1 from 50 to 100. *)
Lemma C5_widening_is_monotone_witness :
  visible Sample.example1
    `sublist_of`
    visible (setCostRange (<[1%nat := Finite 100]> (costRange Sample.example1))
               Sample.example1)
  /\ (forall e, e ∈ visible Sample.example1 ->
        e ∈ visible (setCostRange
                       (<[1%nat := Finite 100]> (costRange Sample.example1))
                       Sample.example1))
  /\ length (visible Sample.example1)
     <= length (visible (setCostRange
                           (<[1%nat := Finite 100]> (costRange Sample.example1))
                           Sample.example1)).
Proof.
  apply (C5_widening_is_monotone Sample.example1).
  apply widen_cost_max. simpl. apply num_le_finite.
  unfold Qle. simpl. lia.
Defined.

(** ** What [filterEvents] writes to the console *)

Lemma snd_bind {A B} (m : Console A) (k : A -> Console B) :
  snd (bind m k) = snd m ++ snd (k (fst m)).
Proof. unfold bind. destruct m as [a o]. simpl. by destruct (k a). Qed.

Lemma quiet_bind {A B} (m : Console A) (k : A -> Console B) :
  quiet (snd m) -> (forall a, quiet (snd (k a))) -> quiet (snd (bind m k)).
Proof. intros Hm Hk. rewrite snd_bind. apply Forall_app. split; [done | apply Hk]. Qed.

Lemma quiet_log m : quiet (snd (console_log m)).
Proof. by repeat constructor. Qed.

Lemma quiet_ret {A} (a : A) : quiet (snd (ret a)).
Proof. constructor. Qed.

Lemma quiet_filterC {A} (f : A -> Console bool) (l : list A) :
  (forall x, quiet (snd (f x))) -> quiet (snd (filterC f l)).
Proof.
  intros Hf. induction l as [|x l IH]; [constructor|].
  simpl. apply quiet_bind; [done|]. intros b.
  apply quiet_bind; [done|]. intros rest. apply quiet_ret.
Qed.

Lemma costCallback_snd range e :
  snd (costCallback range e) =
  if costPasses range e then []
  else [{| level := LevelLog;
           message := MsgCostRejected (name e) (Number (costPerPerson e)) range |}].
Proof. unfold costCallback. rewrite snd_bind. by destruct (costPasses range e). Qed.

Lemma durationCallback_snd range e :
  snd (durationCallback range e) =
  if durationPasses range e then []
  else [{| level := LevelLog;
           message :=
             MsgDurationRejected (name e) (Number (durationHours e)) range |}].
Proof.
  unfold durationCallback. rewrite snd_bind.
  by destruct (durationPasses range e).
Qed.

Lemma filterEvents_quiet st : quiet (filterLog st).
Proof.
  unfold filterLog, filterEvents.
  repeat first
    [ apply quiet_bind; [|intros ?]
    | apply quiet_log
    | apply quiet_ret
    | apply quiet_filterC; intros ?
    | rewrite costCallback_snd
    | rewrite durationCallback_snd
    | match goal with |- context [if ?b then _ else _] => destruct b end
    | by repeat constructor ].
Qed.

Lemma inRange_NaN range : ~ inRange range NaN.
Proof. intros [H _]. by inversion H. Qed.

(** C6, as the code has it: every cost and duration field goes through
    [Number(...)].  An event whose field coerces to [NaN] is never visible.
    [filterEvents] writes plain log lines only, no error: the line for a
    rejected event is the same whether its field is [NaN] or out of range.
    [null] and the empty string coerce to [0] and are compared as [0].  The
    events around a malformed one are filtered as if it were not there. *)
Theorem C6_malformed_fields_excluded_without_error :
  forall st,
    (forall e,
        Number (costPerPerson e) = NaN \/ Number (durationHours e) = NaN ->
        e ∉ visible st)
    /\ ~ reportsError (filterLog st)
    /\ (forall range e,
        snd (costCallback range e) =
        if costPasses range e then []
        else [{| level := LevelLog;
                 message := MsgCostRejected (name e)
                              (Number (costPerPerson e)) range |}])
    /\ (forall range e,
        snd (durationCallback range e) =
        if durationPasses range e then []
        else [{| level := LevelLog;
                 message := MsgDurationRejected (name e)
                              (Number (durationHours e)) range |}])
    /\ (Number JsNull = Finite 0 /\ Number (JsString EmptyString) = Finite 0)
    /\ (forall before e after,
        visible (setEvents (before ++ e :: after) st) =
        visible (setEvents before st) ++ visible (setEvents [e] st)
          ++ visible (setEvents after st)).
Proof.
  intros st. split; [|split; [|split; [|split; [|split]]]].
  - intros e HNaN Hv. apply visible_elem in Hv as (_ & _ & _ & Hc & Hd).
    destruct HNaN as [E|E]; rewrite E in *; by eapply inRange_NaN.
  - intros (l & Hl & Herr).
    pose proof (filterEvents_quiet st) as Hq.
    unfold quiet in Hq. rewrite Forall_forall in Hq.
    specialize (Hq l Hl). congruence.
  - apply costCallback_snd.
  - apply durationCallback_snd.
  - done.
  - intros before e after. rewrite !visible_keeps. simpl.
    rewrite filter_app. by rewrite (filter_app _ [e] after).
Qed.

(** C6, as stated, fails: an event whose cost is the text [abc] is dropped
    while no error is reported, and an event whose cost is [null] is shown,
    its cost taken as zero, with no line about it on the console. *)
Lemma C6_counterexample :
  (Sample.garbled ∈ events Sample.quality
   /\ Number (costPerPerson Sample.garbled) = NaN
   /\ (Sample.garbled ∉ visible Sample.quality)
   /\ ~ reportsError (filterLog Sample.quality))
  /\ (costPerPerson Sample.missing = JsNull
      /\ Sample.missing ∈ visible Sample.quality
      /\ costPasses [Finite 0; Finite 0] Sample.missing = true
      /\ silentAbout (name Sample.missing) (filterLog Sample.quality)).
Proof.
  split; [split; [|split; [|split]] | split; [|split; [|split]]].
  - apply list_elem_of_In. simpl. auto.
  - reflexivity.
  - intros H. apply list_elem_of_In in H. vm_compute in H.
    destruct H as [H|[H|[]]]; discriminate H.
  - intros (l & Hl & Herr). apply list_elem_of_In in Hl. vm_compute in Hl.
    repeat (destruct Hl as [<-|Hl]; [discriminate Herr|]). done.
  - reflexivity.
  - apply list_elem_of_In. vm_compute. auto.
  - reflexivity.
  - intros l Hl. apply list_elem_of_In in Hl. vm_compute in Hl.
    repeat (destruct Hl as [<-|Hl]; [discriminate|]). done.
Qed.

(** ** [surpriseMe] *)

Lemma pow2_pos k : (0 < pow2 k)%Q.
Proof. apply Qpower_0_lt. reflexivity. Qed.

Lemma pow2_plus a b : (pow2 (a + b) == pow2 a * pow2 b)%Q.
Proof. apply Qpower_plus. discriminate. Qed.

Lemma pow2_le a b : (a <= b)%Z -> (pow2 a <= pow2 b)%Q.
Proof. intros H. apply Qpower_le_compat_l; [exact H | discriminate]. Qed.

Lemma pow2_lt a b : (a < b)%Z -> (pow2 a < pow2 b)%Q.
Proof. intros H. apply Qpower_lt_compat_l; [exact H | reflexivity]. Qed.

Lemma pow2_lt_inv a b : (pow2 a < pow2 b)%Q -> (a < b)%Z.
Proof.
  intros H. apply (Qpower_lt_compat_l_inv 2); [exact H | reflexivity].
Qed.

Lemma pow2_Z k : (0 <= k)%Z -> (pow2 k == inject_Z (2 ^ k))%Q.
Proof. intros H. unfold pow2. by rewrite Zpower_Qpower. Qed.

Lemma pow2_cancel k : (pow2 (- k) * pow2 k == 1)%Q.
Proof. rewrite <- pow2_plus. by replace (- k + k)%Z with 0%Z by lia. Qed.

(** [floorLog2 q] is not above the logarithm of [q]. *)
Lemma floorLog2_le q : (0 < q)%Q -> (pow2 (floorLog2 q) <= q)%Q.
Proof.
  intros Hq. unfold floorLog2.
  destruct (Qle_bool _ q) eqn:E; [by apply Qle_bool_iff|].
  destruct q as [a b]. cbn [Qnum Qden].
  assert (0 < a)%Z as Ha by (unfold Qlt in Hq; simpl in Hq; lia).
  pose proof (Z.log2_spec a Ha) as [Hla _].
  pose proof (Z.log2_spec (Z.pos b) eq_refl) as [_ Hlb].
  pose proof (Z.log2_nonneg a) as Hna.
  pose proof (Z.log2_nonneg (Z.pos b)) as Hnb.
  set (la := Z.log2 a) in *. set (lb := Z.log2 (Z.pos b)) in *.
  assert (pow2 (la - lb - 1) * pow2 (lb + 1) == pow2 la)%Q as Hsplit.
  { rewrite <- pow2_plus. by replace (la - lb - 1 + (lb + 1))%Z with la by lia. }
  rewrite (pow2_Z la), (pow2_Z (lb + 1)) in Hsplit by lia.
  pose proof (pow2_pos (la - lb - 1)) as Hp.
  set (p := pow2 (la - lb - 1)) in *.
  rewrite (Qmake_Qdiv a b). apply Qle_shift_div_l; [reflexivity|].
  apply Qle_trans with (p * inject_Z (2 ^ (lb + 1)))%Q.
  - apply Qmult_le_l; [done|]. rewrite <- Zle_Qle. unfold Z.succ in Hlb. lia.
  - rewrite Hsplit, <- Zle_Qle. done.
Qed.

(** Below a half short of the integer [n], the nearest integer is below
    [n]. *)
Lemma roundHalfEven_lt (y : Q) (n : Z) :
  (y < inject_Z n - (1 # 2))%Q -> (roundHalfEven y < n)%Z.
Proof.
  intros Hy. unfold roundHalfEven.
  pose proof (Qfloor_le y) as Hf.
  assert (Qfloor y < n)%Z as Hlt by (rewrite Zlt_Qlt; lra).
  assert (((1 # 2) <= y - inject_Z (Qfloor y))%Q -> (Qfloor y + 1 < n)%Z)
    as Hup.
  { intros Hhalf. rewrite Zlt_Qlt, inject_Z_plus.
    change (inject_Z 1) with 1%Q. lra. }
  destruct (Qcompare_spec (y - inject_Z (Qfloor y)) (1 # 2)) as [E|E|E].
  - destruct (Z.even (Qfloor y)); [done|]. apply Hup. rewrite E. apply Qle_refl.
  - done.
  - apply Hup. by apply Qlt_le_weak.
Qed.

Lemma roundHalfEven_nonneg (y : Q) : (0 <= y)%Q -> (0 <= roundHalfEven y)%Z.
Proof.
  intros Hy. unfold roundHalfEven.
  assert (0 <= Qfloor y)%Z as Hf
    by (change 0%Z with (Qfloor (inject_Z 0)); by apply Qfloor_resp_le).
  destruct (_ ?= _)%Q; [destruct (Z.even _)|..]; lia.
Qed.

(** A double below 1 is at most [1 - 2^-53]. *)
Lemma double_below_one (r : Q) :
  isDouble r -> (r < 1)%Q -> (r <= 1 - pow2 (-53))%Q.
Proof.
  intros (m & k & Hm & Hk & ->) H1.
  pose proof (pow2_pos k) as Hp.
  destruct (Z_lt_le_dec k (-53)) as [Hlow|Hhigh].
  - assert (pow2 k <= pow2 (-54))%Q as Hle by (apply pow2_le; lia).
    assert (inject_Z m <= inject_Z (2 ^ 53 - 1))%Q as Hm'
      by (rewrite <- Zle_Qle; lia).
    apply Qle_trans with (inject_Z (2 ^ 53 - 1) * pow2 k)%Q.
    { apply Qmult_le_compat_r; [done | by apply Qlt_le_weak]. }
    apply Qle_trans with (inject_Z (2 ^ 53 - 1) * pow2 (-54))%Q.
    { apply Qmult_le_l; [reflexivity | done]. }
    by vm_compute.
  - assert (pow2 k == inject_Z (2 ^ (k + 53)) * pow2 (-53))%Q as Ek.
    { rewrite <- pow2_Z, <- pow2_plus by lia.
      by replace (k + 53 + -53)%Z with k by lia. }
    rewrite Ek in H1 |- *. rewrite Qmult_assoc, <- inject_Z_mult in H1 |- *.
    set (z := (m * 2 ^ (k + 53))%Z) in *.
    assert (z < 2 ^ 53)%Z as Hz.
    { rewrite Zlt_Qlt.
      apply Qmult_lt_r with (pow2 (-53)); [apply pow2_pos|].
      eapply Qlt_le_trans; [exact H1|]. by vm_compute. }
    apply Qle_trans with (inject_Z (2 ^ 53 - 1) * pow2 (-53))%Q.
    + apply Qmult_le_compat_r; [|by vm_compute]. rewrite <- Zle_Qle. lia.
    + by vm_compute.
Qed.

(** The double nearest to a product [r * n], for a double [r] below 1 and
    an integer [n] below [2^53], is below [n]. *)
Lemma roundPositive_below (x : Q) (n : Z) :
  (0 < x)%Q -> (n < 2 ^ 53)%Z ->
  (x <= inject_Z n * (1 - pow2 (-53)))%Q ->
  exists v, roundPositive x = Finite v /\ (0 <= v)%Q /\ (v < inject_Z n)%Q.
Proof.
  intros Hx Hn Hle.
  pose proof (pow2_pos (-53)) as Hc.
  assert (pow2 (-53) < 1)%Q as Hc1 by by vm_compute.
  assert (0 < inject_Z n)%Q as Hn0.
  { destruct (Qlt_le_dec 0 (inject_Z n)) as [|Hneg]; [done|].
    exfalso. apply (Qlt_irrefl 0).
    eapply Qlt_le_trans; [exact Hx|]. 
    eapply Qle_trans; [exact Hle|].
    rewrite <- (Qmult_0_l (1 - pow2 (-53))).
    apply Qmult_le_compat_r; [done | lra]. }
  assert (x < inject_Z n)%Q as Hxn.
  { eapply Qle_lt_trans; [exact Hle|].
    rewrite <- (Qmult_1_r (inject_Z n)) at 2.
    apply Qmult_lt_l; [done | lra]. }
  assert (inject_Z n < pow2 53)%Q as Hn53
    by (rewrite (pow2_Z 53) by lia; by rewrite <- Zlt_Qlt).
  pose proof (floorLog2_le x Hx) as He.
  assert (floorLog2 x < 53)%Z as He53 by (apply pow2_lt_inv; lra).
  unfold roundPositive. set (k := quantum x).
  assert (k <= 0)%Z as Hk0 by (unfold k, quantum; lia).
  assert (pow2 (k + 52) < inject_Z n)%Q as Hk.
  { unfold k, quantum.
    destruct (Z.max_spec (floorLog2 x - 52) (-1074)) as [[_ ->]|[_ ->]].
    - apply Qlt_le_trans with 1%Q; [by vm_compute|].
      change 1%Q with (inject_Z 1). rewrite <- Zle_Qle.
      rewrite <- (Zlt_Qlt 0) in Hn0. lia.
    - replace (floorLog2 x - 52 + 52)%Z with (floorLog2 x) by lia. lra. }
  pose proof (pow2_pos (- k)) as Ha. pose proof (pow2_pos k) as Hb.
  pose proof (pow2_pos (k + 52)) as Hd.
  pose proof (pow2_cancel k) as Hab.
  assert (pow2 (-53) * pow2 (- k) * pow2 (k + 52) == 1 # 2)%Q as Hhalf.
  { rewrite <- !pow2_plus. by replace (-53 + - k + (k + 52))%Z with (-1)%Z by lia. }
  assert (pow2 (- k) == inject_Z (2 ^ (- k)))%Q as HP by (apply pow2_Z; lia).
  set (y := (x * pow2 (- k))%Q).
  assert (y < inject_Z (n * 2 ^ (- k)) - (1 # 2))%Q as Hy.
  { rewrite inject_Z_mult, <- HP. unfold y.
    apply Qle_lt_trans with (inject_Z n * (1 - pow2 (-53)) * pow2 (- k))%Q.
    { apply Qmult_le_compat_r; [done | by apply Qlt_le_weak]. }
    assert ((1 # 2) < inject_Z n * (pow2 (-53) * pow2 (- k)))%Q as Hgap.
    { rewrite <- Hhalf.
      setoid_replace (pow2 (-53) * pow2 (- k) * pow2 (k + 52))%Q
        with (pow2 (k + 52) * (pow2 (-53) * pow2 (- k)))%Q
        using relation Qeq by ring.
      apply Qmult_lt_compat_r; [|done].
      rewrite <- (Qmult_0_l (pow2 (- k))). by apply Qmult_lt_compat_r. }
    setoid_replace (inject_Z n * (1 - pow2 (-53)) * pow2 (- k))%Q
      with (inject_Z n * pow2 (- k)
            - inject_Z n * (pow2 (-53) * pow2 (- k)))%Q
      using relation Qeq by ring.
    lra. }
  assert (0 <= y)%Q as Hy0.
  { unfold y. apply Qmult_le_0_compat; by apply Qlt_le_weak. }
  pose proof (roundHalfEven_lt y _ Hy) as Hm.
  pose proof (roundHalfEven_nonneg y Hy0) as Hm0.
  set (m := roundHalfEven y) in *.
  assert (inject_Z m * pow2 k < inject_Z n)%Q as Hv.
  { apply Qle_lt_trans with (inject_Z (n * 2 ^ (- k) - 1) * pow2 k)%Q.
    { apply Qmult_le_compat_r; [|by apply Qlt_le_weak].
      rewrite <- Zle_Qle. lia. }
    unfold Zminus. rewrite inject_Z_plus, inject_Z_mult, <- HP.
    setoid_replace ((inject_Z n * pow2 (- k) + inject_Z (-1)) * pow2 k)%Q
      with (inject_Z n * (pow2 (- k) * pow2 k) - pow2 k)%Q
      using relation Qeq by (change (inject_Z (-1)) with (-1)%Q; ring).
    rewrite Hab. lra. }
  assert (0 <= inject_Z m * pow2 k)%Q as Hv0.
  { apply Qmult_le_0_compat; [|by apply Qlt_le_weak].
    change 0%Q with (inject_Z 0). by rewrite <- Zle_Qle. }
  assert (Qle_bool (pow2 1024) (inject_Z m * pow2 k) = false) as ->.
  { destruct (Qle_bool _ _) eqn:E; [|done].
    apply Qle_bool_iff in E.
    assert (pow2 53 < pow2 1024)%Q by (apply pow2_lt; lia). lra. }
  eexists. split; [reflexivity|]. rewrite Qred_correct. by split.
Qed.

(** The index that [surpriseMe] computes lies inside the array. *)
Lemma random_index (r : Q) (n : nat) :
  isDouble r -> (0 <= r)%Q -> (r < 1)%Q ->
  (0 < n)%nat -> (Z.of_nat n < 2 ^ 53)%Z ->
  exists i : Z,
    floor (roundToDouble (r * inject_Z (Z.of_nat n))) = Finite (inject_Z i)
    /\ (0 <= i < Z.of_nat n)%Z.
Proof.
  intros Hd H0 H1 Hn Hbig.
  assert (0 < inject_Z (Z.of_nat n))%Q as Hpos
    by (rewrite <- (Zlt_Qlt 0); lia).
  pose proof (double_below_one r Hd H1) as Hr.
  unfold roundToDouble.
  destruct (Qcompare_spec (r * inject_Z (Z.of_nat n)) 0) as [E|E|E].
  - exists 0%Z. split; [reflexivity | lia].
  - exfalso. apply (Qlt_irrefl 0). eapply Qle_lt_trans; [|exact E].
    apply Qmult_le_0_compat; [done | by apply Qlt_le_weak].
  - destruct (roundPositive_below _ (Z.of_nat n) E Hbig)
      as (v & -> & Hv0 & Hv).
    { rewrite (Qmult_comm r). apply Qmult_le_l; done. }
    exists (Qfloor v). split; [reflexivity|]. split.
    + change 0%Z with (Qfloor (inject_Z 0)). by apply Qfloor_resp_le.
    + rewrite Zlt_Qlt. eapply Qle_lt_trans; [apply Qfloor_le | done].
Qed.

Lemma arrayAt_integer {A} (l : list A) (i : Z) :
  (0 <= i)%Z -> arrayAt l (Finite (inject_Z i)) = l !! Z.to_nat i.
Proof.
  intros Hi. unfold arrayAt. rewrite Qfloor_Z.
  rewrite (proj2 (Qeq_bool_iff _ _) (Qeq_refl _)).
  by rewrite (proj2 (Z.leb_le _ _) Hi).
Qed.

(** C8: on a visible set that is not empty [surpriseMe] opens one of its
    events, whatever double in [[0, 1)] [Math.random()] returned, the
    product being the rounded product of doubles (an array has fewer than
    [2^32] elements); on an empty one it changes nothing, so the selection
    stays as it was.  The draw [0.3333333333333333] on three events gives
    the index 1, the product rounding up to 1. *)
Theorem C8_surprise_picks_visible_event :
  forall (st : AppState) (r : Q),
    isDouble r -> (0 <= r)%Q -> (r < 1)%Q ->
    (Z.of_nat (length (filteredEvents st)) < 2 ^ 32)%Z ->
    (filteredEvents st <> [] ->
       exists e, e ∈ filteredEvents st
                 /\ surpriseMe r st = setSelectedEvent (Some e) st
                 /\ selectedEvent (surpriseMe r st) = Some e)
    /\ (filteredEvents st = [] ->
          surpriseMe r st = st
          /\ selectedEvent (surpriseMe r st) = selectedEvent st)
    /\ (forall st0, st = fst (filterEvents st0) -> filteredEvents st = visible st0)
    /\ floor (roundToDouble ((6004799503160661 # 18014398509481984) * 3))
       = Finite 1.
Proof.
  intros st r Hd H0 H1 Hlen. split; [|split; [|split]].
  - intros Hne. unfold surpriseMe.
    destruct (filteredEvents st) as [|x l] eqn:E; [done|].
    replace (0 <? length (x :: l))%nat with true by done.
    destruct (random_index r (length (x :: l)) Hd H0 H1)
      as (i & -> & Hlo & Hhi); [simpl; lia | lia |].
    rewrite arrayAt_integer by done.
    destruct (lookup_lt_is_Some_2 (x :: l) (Z.to_nat i)) as [e He]; [lia|].
    exists e. rewrite He. split; [by eapply list_elem_of_lookup_2 | done].
  - intros E. unfold surpriseMe. by rewrite E.
  - intros st0 ->. reflexivity.
  - vm_compute. reflexivity.
Qed.
(** A draw of one half on the visible set of Example 2. *)
Lemma C8_surprise_picks_visible_event_witness :
  (filteredEvents (fst (filterEvents Sample.example2)) <> [] ->
     exists e, e ∈ filteredEvents (fst (filterEvents Sample.example2))
               /\ surpriseMe (1 # 2) (fst (filterEvents Sample.example2)) =
                  setSelectedEvent (Some e) (fst (filterEvents Sample.example2))
               /\ selectedEvent
                    (surpriseMe (1 # 2) (fst (filterEvents Sample.example2))) =
                  Some e)
  /\ (filteredEvents (fst (filterEvents Sample.example2)) = [] ->
        surpriseMe (1 # 2) (fst (filterEvents Sample.example2)) =
        fst (filterEvents Sample.example2)
        /\ selectedEvent
             (surpriseMe (1 # 2) (fst (filterEvents Sample.example2))) =
           selectedEvent (fst (filterEvents Sample.example2)))
  /\ (forall st0,
        fst (filterEvents Sample.example2) = fst (filterEvents st0) ->
        filteredEvents (fst (filterEvents Sample.example2)) = visible st0)
  /\ floor (roundToDouble ((6004799503160661 # 18014398509481984) * 3))
     = Finite 1.
Proof.
  apply (C8_surprise_picks_visible_event
           (fst (filterEvents Sample.example2)) (1 # 2)).
  - exists 1%Z, (-1)%Z. split; [reflexivity|]. split; [lia | reflexivity].
  - unfold Qle. simpl. lia.
  - unfold Qlt. simpl. lia.
  - vm_compute. reflexivity.
Defined.

(** ** [loadFavorites] *)

(** C9, as the code has it: while no user is signed in [loadFavorites]
    returns at once: it makes no request, writes nothing to the console and
    leaves the component state, the favorites set with it, as it was.  The
    set is empty after such a load only if it was empty before, as on the
    initial state. *)
Theorem C9_load_without_user_is_noop :
  forall (db : Database) (st : AppState),
    user st = None ->
    loadFavorites db st = (st, [])
    /\ loadFavorites_request db st = None
    /\ favorites (fst (loadFavorites db st)) = favorites st
    /\ favorites (fst (loadFavorites db initialState)) = ∅.
Proof.
  intros db st Hu. unfold loadFavorites, loadFavorites_request.
  rewrite Hu. by repeat split.
Qed.

(** A load after alice has signed out. *)
Lemma C9_load_without_user_is_noop_witness :
  loadFavorites Sample.db (app Sample.signedOut) = (app Sample.signedOut, [])
  /\ loadFavorites_request Sample.db (app Sample.signedOut) = None
  /\ favorites (fst (loadFavorites Sample.db (app Sample.signedOut))) =
     favorites (app Sample.signedOut)
  /\ favorites (fst (loadFavorites Sample.db initialState)) = ∅.
Proof.
  apply (C9_load_without_user_is_noop Sample.db (app Sample.signedOut)).
  reflexivity.
Defined.

(** C9, as stated, fails: after alice has signed out nobody is signed in,
    and a load of the favorites leaves her favorite in the set. *)
Lemma C9_counterexample :
  user (app Sample.signedOut) = None
  /\ "c1" ∈ favorites
              (fst (loadFavorites (store Sample.signedOut)
                      (app Sample.signedOut)))
  /\ favorites
       (fst (loadFavorites (store Sample.signedOut) (app Sample.signedOut)))
     <> ∅.
Proof.
  assert ("c1" ∈ favorites
                   (fst (loadFavorites (store Sample.signedOut)
                           (app Sample.signedOut)))) as Hin.
  { apply elem_of_elements. vm_compute. left. }
  split; [reflexivity|]. split; [done|].
  intros E. rewrite E in Hin. by apply not_elem_of_empty in Hin.
Qed.

(** ** [toggleFavorite] *)

Lemma removeById_length i rows :
  existsb (fun r => (fav_id r =? i)%nat) rows = true ->
  S (length (removeById i rows)) = length rows.
Proof.
  induction rows as [|r rows IH]; simpl; [discriminate|].
  destruct (fav_id r =? i)%nat; simpl; [done|].
  intros H. by rewrite IH.
Qed.

Lemma existsb_fav_id (r : FavoriteRecord) rows :
  r ∈ rows -> existsb (fun x => (fav_id x =? fav_id r)%nat) rows = true.
Proof.
  intros H. apply existsb_exists. exists r.
  split; [by apply list_elem_of_In | apply Nat.eqb_refl].
Qed.

Lemma favoriteMatches_spec uid eid r :
  favoriteMatches uid (Some eid) r <-> userId r = uid /\ eventId r = eid.
Proof.
  unfold favoriteMatches.
  by rewrite andb_True, !Is_true_true, !String.eqb_eq.
Qed.

Lemma removeById_sublist i rows : removeById i rows `sublist_of` rows.
Proof.
  induction rows as [|r rows IH]; [done|]. simpl.
  destruct (fav_id r =? i)%nat; by constructor.
Qed.

Lemma removeById_keeps i rows r :
  r ∈ rows -> fav_id r <> i -> r ∈ removeById i rows.
Proof.
  induction rows as [|a rows IH]; intros Hr Hne; [done|]. simpl.
  apply elem_of_cons in Hr as [->|Hr].
  - destruct (Nat.eqb_spec (fav_id a) i); [done | left].
  - destruct (fav_id a =? i)%nat; [done | right; auto].
Qed.

Lemma removeById_drops i rows r :
  NoDup (map fav_id rows) -> r ∈ removeById i rows -> fav_id r <> i.
Proof.
  induction rows as [|a rows IH]; intros Hnd Hr; [by apply elem_of_nil in Hr|].
  simpl in Hnd. apply NoDup_cons in Hnd as [Ha Hnd]. simpl in Hr.
  destruct (Nat.eqb_spec (fav_id a) i) as [<-|Hne].
  - intros E. apply Ha. rewrite <- E.
    apply list_elem_of_In, in_map. by apply list_elem_of_In.
  - apply elem_of_cons in Hr as [->|Hr]; auto.
Qed.


Lemma same_id_same_record (rows : list FavoriteRecord) x y :
  NoDup (map fav_id rows) -> x ∈ rows -> y ∈ rows ->
  fav_id x = fav_id y -> x = y.
Proof.
  induction rows as [|a rows IH]; intros Hnd Hx Hy E;
    [by apply elem_of_nil in Hx|].
  simpl in Hnd. apply NoDup_cons in Hnd as [Ha Hnd].
  assert (forall z, z ∈ rows -> fav_id z <> fav_id a) as Hfresh.
  { intros z Hz Ez. apply Ha. rewrite <- Ez.
    apply list_elem_of_In, in_map. by apply list_elem_of_In. }
  apply elem_of_cons in Hx as [->|Hx]; apply elem_of_cons in Hy as [->|Hy].
  - done.
  - exfalso. by apply (Hfresh y Hy).
  - exfalso. by apply (Hfresh x Hx).
  - by apply IH.
Qed.

(** The record [toggleFavorite] deletes: the first one of the user and the
    event. *)
Lemma toggle_remove now eid st db u r rest :
  user st = Some u -> online db = true -> eid ∈ favorites st ->
  filter (favoriteMatches (user_id u) (Some eid)) (favoriteRows db) = r :: rest ->
  let o := toggleFavorite now eid st db in
  out_state o = setFavorites (fun prev => prev ∖ {[eid]}) st
  /\ out_calls o = [CallFavoritesList (user_id u) (Some eid);
                    CallFavoritesDelete (fav_id r)]
  /\ online (out_db o) = true
  /\ S (length (favoriteRows (out_db o))) = length (favoriteRows db)
  /\ out_console o = []
  /\ favoriteRows (out_db o) = removeById (fav_id r) (favoriteRows db).
Proof.
  intros Hu Hon Hin Hrows. unfold toggleFavorite.
  rewrite Hu, (bool_decide_eq_true_2 _ Hin).
  unfold favorites_list, favorites_delete. rewrite Hon, Hrows.
  assert (r ∈ favoriteRows db) as Hr.
  { eapply (list_elem_of_filter _ (favoriteRows db) r).
    rewrite Hrows. left. }
  rewrite (existsb_fav_id r _ Hr). simpl.
  repeat split; try done. by apply removeById_length, existsb_fav_id.
Qed.

Lemma toggle_remove_unbacked now eid st db u :
  user st = Some u -> online db = true -> eid ∈ favorites st ->
  filter (favoriteMatches (user_id u) (Some eid)) (favoriteRows db) = [] ->
  let o := toggleFavorite now eid st db in
  out_state o = setFavorites (fun prev => prev ∖ {[eid]}) st
  /\ out_calls o = [CallFavoritesList (user_id u) (Some eid)]
  /\ out_db o = db
  /\ out_console o = [].
Proof.
  intros Hu Hon Hin Hrows. unfold toggleFavorite.
  rewrite Hu, (bool_decide_eq_true_2 _ Hin).
  unfold favorites_list. by rewrite Hon, Hrows.
Qed.

Lemma toggle_add now eid st db u :
  user st = Some u -> online db = true -> eid ∉ favorites st ->
  let o := toggleFavorite now eid st db in
  out_state o = setFavorites (fun prev => prev ∪ {[eid]}) st
  /\ out_calls o = [CallFavoritesCreate (user_id u) eid]
  /\ online (out_db o) = true
  /\ favoriteRows (out_db o) =
     favoriteRows db ++ [{| fav_id := freshId (favoriteRows db);
                            userId := user_id u; eventId := eid;
                            createdAt := now |}]
  /\ out_console o = [].
Proof.
  intros Hu Hon Hin. unfold toggleFavorite.
  rewrite Hu, (bool_decide_eq_false_2 _ Hin).
  unfold favorites_create. by rewrite Hon.
Qed.

Lemma backed_rows uid eid rows :
  (exists r, r ∈ rows /\ userId r = uid /\ eventId r = eid) ->
  exists r rest, filter (favoriteMatches uid (Some eid)) rows = r :: rest.
Proof.
  intros (r & Hr & Hu & He).
  assert (r ∈ filter (favoriteMatches uid (Some eid)) rows) as Hin.
  { apply list_elem_of_filter. split; [by apply favoriteMatches_spec | done]. }
  destruct (filter _ rows) as [|x rest]; [by apply elem_of_nil in Hin | eauto].
Qed.

Lemma not_in_remove (X : gset string) x : x ∉ X ∖ {[x]}.
Proof. rewrite elem_of_difference, elem_of_singleton. tauto. Qed.

Lemma in_add (X : gset string) x : x ∈ X ∪ {[x]}.
Proof. rewrite elem_of_union, elem_of_singleton. tauto. Qed.

Lemma add_remove (X : gset string) x : x ∉ X -> (X ∪ {[x]}) ∖ {[x]} = X.
Proof.
  intros Hx. apply set_eq. intros y.
  rewrite elem_of_difference, elem_of_union, elem_of_singleton.
  destruct (decide (y = x)) as [->|]; tauto.
Qed.

Lemma remove_add (X : gset string) x : x ∈ X -> (X ∖ {[x]}) ∪ {[x]} = X.
Proof.
  intros Hx. apply set_eq. intros y.
  rewrite elem_of_union, elem_of_difference, elem_of_singleton.
  destruct (decide (y = x)) as [->|]; tauto.
Qed.

(** From the click to its end with nothing in between, the toggle between
    its awaits is [toggleFavorite]. *)
Lemma toggle_uninterrupted now eid st db :
  let s := settle 0 (settle 0 (click now eid (startSession st db))) in
  sofar s = toggleFavorite now eid st db /\ running s = [].
Proof.
  cbv zeta. unfold click, toggleFavorite, startSession.
  cbn [sofar out_state].
  destruct (user st) as [u|]; [|split; reflexivity].
  destruct (bool_decide (eid ∈ favorites st)).
  - unfold settle at 2 4. cbn [running sofar]. simpl.
    unfold favorites_list.
    destruct (online db) eqn:Hon; [|split; reflexivity].
    destruct (filter _ (favoriteRows db)) as [|r rest]; [split; reflexivity|].
    unfold settle. simpl. unfold favorites_delete. rewrite Hon. simpl.
    destruct (existsb _ (favoriteRows db)); split; reflexivity.
  - unfold settle at 2 4. cbn [running sofar]. simpl.
    unfold favorites_create.
    destruct (online db); split; reflexivity.
Qed.

Lemma settle_create o u eid now rest :
  online (out_db o) = true ->
  settle 0 {| sofar := o; running := AwaitingCreate u eid now :: rest |} =
  {| sofar :=
       rendered (setFavorites (fun prev => prev ∪ {[eid]}))
         (stored
            {| online := true; eventRows := eventRows (out_db o);
               favoriteRows :=
                 favoriteRows (out_db o)
                 ++ [{| fav_id := freshId (favoriteRows (out_db o));
                        userId := user_id u; eventId := eid;
                        createdAt := now |}] |} o);
     running := rest |}.
Proof.
  intros Hon. unfold settle. simpl. unfold favorites_create.
  by rewrite Hon.
Qed.

(** Two clicks on an event outside the set, the second before the answer
    to the first: both toggles create. *)
Lemma double_click now now' eid st db u :
  user st = Some u -> online db = true -> eid ∉ favorites st ->
  let s :=
    settle 0 (settle 0 (click now' eid (click now eid (startSession st db)))) in
  let first := {| fav_id := freshId (favoriteRows db);
                  userId := user_id u; eventId := eid; createdAt := now |} in
  let second := {| fav_id := freshId (favoriteRows db ++ [first]);
                   userId := user_id u; eventId := eid; createdAt := now' |} in
  running s = []
  /\ out_calls (sofar s) = [CallFavoritesCreate (user_id u) eid;
                            CallFavoritesCreate (user_id u) eid]
  /\ out_console (sofar s) = []
  /\ favorites (out_state (sofar s)) = favorites st ∪ {[eid]}
  /\ favoriteRows (out_db (sofar s)) = favoriteRows db ++ [first; second].
Proof.
  intros Hu Hon Hout. cbv zeta. unfold click, startSession.
  cbn [sofar out_state].
  rewrite Hu, (bool_decide_eq_false_2 _ Hout).
  cbn [sofar called out_state]. rewrite Hu, (bool_decide_eq_false_2 _ Hout).
  cbn [running Datatypes.app]. rewrite settle_create by done.
  rewrite settle_create by done. simpl.
  repeat split; try done.
  - apply set_eq. intros x. rewrite !elem_of_union. tauto.
  - by rewrite <- app_assoc.
Qed.

(** C7, as the code has it: for a signed-in user and a store that answers,
    a toggle that runs from its click to its end with no other toggle in
    between does the following.  On an event outside the set it makes one
    create, of a record for that user and event, and adds the event.  On an
    event inside the set it asks the store for the records of that user and
    event and takes the event out of the set; if there is such a record it
    deletes the first of them, one delete, and if there is none it writes
    nothing: it makes no write exactly when there is none.  When the set
    mirrors the store such a toggle makes exactly one write, and two of
    them, the second started after the first has ended, bring back the set
    and the number of records.  Two clicks on an event outside the set, the
    second before the first toggle has its answer, make two creates and
    leave two records for that user and event. *)
Theorem C7_toggle_favorite :
  forall (now now' : Z) (eid : string) (st : AppState) (db : Database) (u : User),
    user st = Some u ->
    online db = true ->
    let o := toggleFavorite now eid st db in
    let o' := toggleFavorite now' eid (out_state o) (out_db o) in
    let matching :=
      filter (favoriteMatches (user_id u) (Some eid)) (favoriteRows db) in
    let first := {| fav_id := freshId (favoriteRows db);
                    userId := user_id u; eventId := eid; createdAt := now |} in
    let second := {| fav_id := freshId (favoriteRows db ++ [first]);
                     userId := user_id u; eventId := eid;
                     createdAt := now' |} in
    let twice :=
      settle 0 (settle 0
        (click now' eid (click now eid (startSession st db)))) in
    (eid ∈ favorites (out_state o) <-> eid ∉ favorites st)
    /\ (eid ∉ favorites st ->
          favorites (out_state o) = favorites st ∪ {[eid]}
          /\ out_calls o = [CallFavoritesCreate (user_id u) eid]
          /\ length (favoriteRows (out_db o)) = S (length (favoriteRows db)))
    /\ (eid ∈ favorites st ->
          favorites (out_state o) = favorites st ∖ {[eid]}
          /\ (writes o = 1%nat
              /\ S (length (favoriteRows (out_db o))) = length (favoriteRows db)
              \/ writes o = 0%nat /\ out_db o = db
                 /\ filter (favoriteMatches (user_id u) (Some eid))
                      (favoriteRows db) = []))
    /\ (mirrors u st db ->
          writes o = 1%nat
          /\ writes o' = 1%nat
          /\ favorites (out_state o') = favorites st
          /\ length (favoriteRows (out_db o')) = length (favoriteRows db))
    /\ sofar (settle 0 (settle 0 (click now eid (startSession st db)))) = o
    /\ (eid ∉ favorites st ->
          writes o = 1%nat
          /\ favoriteRows (out_db o) = favoriteRows db ++ [first])
    /\ (eid ∈ favorites st ->
          forall r rest, matching = r :: rest ->
            out_calls o = [CallFavoritesList (user_id u) (Some eid);
                           CallFavoritesDelete (fav_id r)]
            /\ writes o = 1%nat
            /\ favoriteRows (out_db o) =
               removeById (fav_id r) (favoriteRows db)
            /\ (NoDup (map fav_id (favoriteRows db)) ->
                  forall x, x ∈ favoriteRows (out_db o) <->
                            x ∈ favoriteRows db /\ x <> r))
    /\ (eid ∈ favorites st ->
          matching = [] ->
          out_calls o = [CallFavoritesList (user_id u) (Some eid)]
          /\ out_db o = db)
    /\ (eid ∈ favorites st -> (writes o = 0%nat <-> matching = []))
    /\ (eid ∉ favorites st ->
          running twice = []
          /\ out_calls (sofar twice) = [CallFavoritesCreate (user_id u) eid;
                                        CallFavoritesCreate (user_id u) eid]
          /\ favorites (out_state (sofar twice)) = favorites st ∪ {[eid]}
          /\ favoriteRows (out_db (sofar twice)) =
             favoriteRows db ++ [first; second]
          /\ favoriteMatches (user_id u) (Some eid) first = true
          /\ favoriteMatches (user_id u) (Some eid) second = true).
Proof.
  intros now now' eid st db u Hu Hon o o' matching first second twice.
  assert (forall x : FavoriteRecord,
            userId x = user_id u -> eventId x = eid ->
            favoriteMatches (user_id u) (Some eid) x = true) as Hmatch.
  { intros x Hx He. apply Is_true_true, favoriteMatches_spec. by split. }
  assert (sofar (settle 0 (settle 0 (click now eid (startSession st db)))) = o)
    as Hrun by apply toggle_uninterrupted.
  assert (eid ∉ favorites st ->
          running twice = []
          /\ out_calls (sofar twice) = [CallFavoritesCreate (user_id u) eid;
                                        CallFavoritesCreate (user_id u) eid]
          /\ favorites (out_state (sofar twice)) = favorites st ∪ {[eid]}
          /\ favoriteRows (out_db (sofar twice)) =
             favoriteRows db ++ [first; second]
          /\ favoriteMatches (user_id u) (Some eid) first = true
          /\ favoriteMatches (user_id u) (Some eid) second = true) as Htwice.
  { intros Hout.
    destruct (double_click now now' eid st db u Hu Hon Hout)
      as (H1 & H2 & _ & H3 & H4).
    repeat split; try done; by apply Hmatch. }
  destruct (decide (eid ∈ favorites st)) as [Hin|Hout].
  - (* the event is a favorite *)
    destruct (filter (favoriteMatches (user_id u) (Some eid)) (favoriteRows db))
      as [|r rest] eqn:Hrows.
    + destruct (toggle_remove_unbacked now eid st db u Hu Hon Hin Hrows)
        as (Hst & Hcalls & Hdb & _).
      fold o in Hst, Hcalls, Hdb.
      assert (favorites (out_state o) = favorites st ∖ {[eid]}) as Hfav
        by (by rewrite Hst).
      assert (writes o = 0%nat) as Hw by (unfold writes; by rewrite Hcalls).
      split; [rewrite Hfav; split; [intros H; by apply not_in_remove in H | done]|].
      split; [done|].
      split; [intros _; split; [done|]; by right|].
      split.
      { intros Hm. destruct (backed_rows (user_id u) eid (favoriteRows db))
          as (r & rest & E); [by apply Hm|]. congruence. }
      split; [done|]. split; [done|].
      split; [intros _ r rest E; unfold matching in E; congruence|].
      split; [done|].
      split; [|done]. intros _. by unfold matching.
    + destruct (toggle_remove now eid st db u r rest Hu Hon Hin Hrows)
        as (Hst & Hcalls & Hon' & Hlen & _ & Hdb).
      fold o in Hst, Hcalls, Hon', Hlen, Hdb.
      assert (favorites (out_state o) = favorites st ∖ {[eid]}) as Hfav
        by (by rewrite Hst).
      assert (writes o = 1%nat) as Hw by (unfold writes; by rewrite Hcalls).
      assert (r ∈ favoriteRows db) as Hr.
      { eapply (list_elem_of_filter _ (favoriteRows db) r).
        rewrite Hrows. left. }
      split; [rewrite Hfav; split; [intros H; by apply not_in_remove in H | done]|].
      split; [done|].
      split; [intros _; split; [done | by left]|].
      split.
      { intros _.
        assert (user (out_state o) = Some u) as Hu' by (by rewrite Hst).
        assert (eid ∉ favorites (out_state o)) as Hout'
          by (rewrite Hfav; apply not_in_remove).
        destruct (toggle_add now' eid (out_state o) (out_db o) u Hu' Hon' Hout')
          as (Hst' & Hcalls' & _ & Hrows' & _).
        fold o' in Hst', Hcalls', Hrows'.
        split; [done|]. split; [unfold writes; by rewrite Hcalls'|].
        split.
        * rewrite Hst'. simpl. rewrite Hfav. by apply remove_add.
        * rewrite Hrows', length_app. simpl. lia. }
      split; [done|]. split; [done|].
      split.
      { intros _ r' rest' E. unfold matching in E. injection E as <- <-.
        split; [done|]. split; [done|]. split; [done|].
        intros Hnd x. rewrite Hdb. split.
        - intros Hx. split.
          + eapply sublist_subseteq; [apply removeById_sublist | done].
          + intros ->. by apply (removeById_drops _ _ _ Hnd Hx).
        - intros [Hx Hne]. apply removeById_keeps; [done|].
          intros E. apply Hne. by apply (same_id_same_record _ _ _ Hnd Hx Hr). }
      split; [intros _ E; unfold matching in E; congruence|].
      split; [|done]. intros _. unfold matching. rewrite Hw.
      split; discriminate.
  - (* the event is not a favorite *)
    destruct (toggle_add now eid st db u Hu Hon Hout)
      as (Hst & Hcalls & Hon' & Hrows & _).
    fold o in Hst, Hcalls, Hon', Hrows.
    assert (favorites (out_state o) = favorites st ∪ {[eid]}) as Hfav
      by (by rewrite Hst).
    assert (writes o = 1%nat) as Hw by (unfold writes; by rewrite Hcalls).
    split; [rewrite Hfav; split; [done | intros _; apply in_add]|].
    split.
    { intros _. split; [done|]. split; [done|].
      rewrite Hrows, length_app. simpl. lia. }
    split; [done|].
    split.
    { intros Hm.
      assert (user (out_state o) = Some u) as Hu' by (by rewrite Hst).
      assert (eid ∈ favorites (out_state o)) as Hin'
        by (rewrite Hfav; apply in_add).
      assert (exists r rest,
                filter (favoriteMatches (user_id u) (Some eid))
                  (favoriteRows (out_db o)) = r :: rest) as (r & rest & Hrows').
      { apply backed_rows. exists first.
        split; [rewrite Hrows; apply elem_of_app; right; left | done]. }
      destruct (toggle_remove now' eid (out_state o) (out_db o) u r rest
                  Hu' Hon' Hin' Hrows') as (Hst' & Hcalls' & _ & Hlen' & _).
      fold o' in Hst', Hcalls', Hlen'.
      split; [done|]. split; [unfold writes; by rewrite Hcalls'|].
      split.
      * rewrite Hst'. simpl. rewrite Hfav. by apply add_remove.
      * rewrite Hrows, length_app in Hlen'. simpl in Hlen'. lia. }
    split; [done|].
    split; [done|].
    split; [done|]. split; [done|]. split; [done|]. done.
Qed.

(** Alice, signed in with her favorites loaded, toggles her favorite. *)
Lemma C7_toggle_favorite_witness :
  user (app Sample.settled) = Some Sample.alice
  /\ online Sample.db = true
  /\ let st := app Sample.settled in
     let db := Sample.db in
     let u := Sample.alice in
     let o := toggleFavorite 1 "c1" st db in
     let o' := toggleFavorite 2 "c1" (out_state o) (out_db o) in
     let matching :=
       filter (favoriteMatches (user_id u) (Some "c1")) (favoriteRows db) in
     let first := {| fav_id := freshId (favoriteRows db);
                     userId := user_id u; eventId := "c1"; createdAt := 1 |} in
     let second := {| fav_id := freshId (favoriteRows db ++ [first]);
                      userId := user_id u; eventId := "c1";
                      createdAt := 2 |} in
     let twice :=
       settle 0 (settle 0
         (click 2 "c1" (click 1 "c1" (startSession st db)))) in
     ("c1" ∈ favorites (out_state o) <-> "c1" ∉ favorites st)
     /\ ("c1" ∉ favorites st ->
           favorites (out_state o) = favorites st ∪ {["c1"]}
           /\ out_calls o = [CallFavoritesCreate (user_id u) "c1"]
           /\ length (favoriteRows (out_db o)) = S (length (favoriteRows db)))
     /\ ("c1" ∈ favorites st ->
           favorites (out_state o) = favorites st ∖ {["c1"]}
           /\ (writes o = 1%nat
               /\ S (length (favoriteRows (out_db o))) =
                  length (favoriteRows db)
               \/ writes o = 0%nat /\ out_db o = db
                  /\ filter (favoriteMatches (user_id u) (Some "c1"))
                       (favoriteRows db) = []))
     /\ (mirrors u st db ->
           writes o = 1%nat
           /\ writes o' = 1%nat
           /\ favorites (out_state o') = favorites st
           /\ length (favoriteRows (out_db o')) = length (favoriteRows db))
     /\ sofar (settle 0 (settle 0 (click 1 "c1" (startSession st db)))) = o
     /\ ("c1" ∉ favorites st ->
           writes o = 1%nat
           /\ favoriteRows (out_db o) = favoriteRows db ++ [first])
     /\ ("c1" ∈ favorites st ->
           forall r rest, matching = r :: rest ->
             out_calls o = [CallFavoritesList (user_id u) (Some "c1");
                            CallFavoritesDelete (fav_id r)]
             /\ writes o = 1%nat
             /\ favoriteRows (out_db o) =
                removeById (fav_id r) (favoriteRows db)
             /\ (NoDup (map fav_id (favoriteRows db)) ->
                   forall x, x ∈ favoriteRows (out_db o) <->
                             x ∈ favoriteRows db /\ x <> r))
     /\ ("c1" ∈ favorites st ->
           matching = [] ->
           out_calls o = [CallFavoritesList (user_id u) (Some "c1")]
           /\ out_db o = db)
     /\ ("c1" ∈ favorites st -> (writes o = 0%nat <-> matching = []))
     /\ ("c1" ∉ favorites st ->
           running twice = []
           /\ out_calls (sofar twice) = [CallFavoritesCreate (user_id u) "c1";
                                         CallFavoritesCreate (user_id u) "c1"]
           /\ favorites (out_state (sofar twice)) = favorites st ∪ {["c1"]}
           /\ favoriteRows (out_db (sofar twice)) =
              favoriteRows db ++ [first; second]
           /\ favoriteMatches (user_id u) (Some "c1") first = true
           /\ favoriteMatches (user_id u) (Some "c1") second = true).
Proof.
  split; [reflexivity|]. split; [reflexivity|].
  apply (C7_toggle_favorite 1 2 "c1" (app Sample.settled) Sample.db Sample.alice);
    reflexivity.
Defined.

(** C7, as stated, fails: bob has just signed in and the set still holds
    alice's favorite, which no record of bob backs.  His toggle takes the
    event out of the set without any write, and his second toggle creates a
    record: two toggles, and the store has one record more. *)
Lemma C7_counterexample :
  let st := app Sample.handover in
  let db := store Sample.handover in
  let o := toggleFavorite 1 "c1" st db in
  let o' := toggleFavorite 2 "c1" (out_state o) (out_db o) in
  user st = Some Sample.bob
  /\ online db = true
  /\ "c1" ∈ favorites st
  /\ writes o = 0%nat
  /\ out_calls o' = [CallFavoritesCreate "bob" "c1"]
  /\ length (favoriteRows db) = 1%nat
  /\ length (favoriteRows (out_db o')) = 2%nat.
Proof.
  split; [reflexivity|]. split; [reflexivity|].
  split; [apply elem_of_elements; vm_compute; left|].
  repeat split; reflexivity.
Qed.

(** ** Loading the catalog *)

Lemma filterEvents_fst st :
  fst (filterEvents st) = setFilteredEvents (visible st) st.
Proof. unfold visible, filterEvents. by rewrite !fst_bind. Qed.

Lemma filterEffect_app sys :
  app (filterEffect sys) = setFilteredEvents (visible (app sys)) (app sys).
Proof.
  unfold filterEffect. rewrite <- filterEvents_fst.
  by destruct (filterEvents (app sys)).
Qed.

Lemma filterEffect_inflight sys : inflight (filterEffect sys) = inflight sys.
Proof. unfold filterEffect. by destruct (filterEvents (app sys)). Qed.

Lemma filterEffect_store sys : store (filterEffect sys) = store sys.
Proof. unfold filterEffect. by destruct (filterEvents (app sys)). Qed.

Lemma lastEventsRequest_app l1 l2 :
  lastEventsRequest (l1 ++ l2) =
  match lastEventsRequest l2 with
  | Some x => Some x
  | None => lastEventsRequest l1
  end.
Proof.
  induction l1 as [|p l1 IH]; simpl.
  - by destruct (lastEventsRequest l2).
  - rewrite IH. by destruct (lastEventsRequest l2).
Qed.

Lemma catalog_events_list db c :
  online db = true ->
  events_list db (cityName c) =
  Resolved (sortByName
              (filter (fun r => String.eqb (raw_city r) (cityName c))
                 (eventRows db))).
Proof. intros Hon. unfold events_list. by rewrite Hon. Qed.

(** A completed load writes its result into the catalog, whatever city is
    selected by then. *)
Lemma deliver_events sys i c rows :
  inflight sys !! i = Some (PendingEvents c (Resolved rows)) ->
  events (app (step (Deliver i) sys)) = map formatEvent rows
  /\ selectedCity (app (step (Deliver i) sys)) = selectedCity (app sys)
  /\ inflight (step (Deliver i) sys) = delete i (inflight sys).
Proof.
  intros E. unfold step. rewrite E. simpl.
  by rewrite filterEffect_app, filterEffect_inflight.
Qed.

Lemma loadEffect_store sys : store (loadEffect sys) = store sys.
Proof.
  unfold loadEffect. destruct (user (app sys)); [|done].
  by destruct (loading (app sys)).
Qed.

Lemma step_store a sys : store (step a sys) = store sys.
Proof.
  destruct a as [u l|c|i]; simpl.
  - by rewrite loadEffect_store.
  - destruct (user (app sys)); [|done].
    destruct (loading (app sys) || city_eqb c (selectedCity (app sys))); [done|].
    by rewrite loadEffect_store.
  - destruct (inflight sys !! i) as [[c [rows|]|r]|]; try done.
    + simpl. by rewrite filterEffect_store.
    + by destruct (loadFavorites_resume r (app sys)).
Qed.

(** The load effect of a signed-in user puts the request for the selected
    city last. *)
Lemma loadEffect_requests db sys u :
  store sys = db -> user (app sys) = Some u -> loading (app sys) = false ->
  inStep db (loadEffect sys).
Proof.
  intros Hdb Hu Hl. unfold inStep, loadEffect. rewrite Hu, Hl. simpl.
  split; [done|]. rewrite lastEventsRequest_app. simpl.
  unfold loadFavorites_request. rewrite Hu. simpl.
  rewrite Hdb. by destruct (selectedCity (app sys)).
Qed.

Lemma loadEffect_idle db sys :
  store sys = db ->
  user (app sys) = None \/ loading (app sys) = true ->
  (forall c r, lastEventsRequest (inflight sys) = Some (c, r) ->
     c = selectedCity (app sys) /\ r = events_list db (cityName c)) ->
  inStep db (loadEffect sys).
Proof.
  intros Hdb Hidle Hlast. unfold inStep, loadEffect.
  assert (forall out,
    inStep db {| app := app sys; store := store sys; inflight := inflight sys;
                 console := out |}) as Hsame.
  { intros out. split; [done|]. simpl.
    destruct (lastEventsRequest (inflight sys)) as [[c r]|] eqn:E; [auto|].
    intros Hu Hl. destruct Hidle; congruence. }
  destruct (user (app sys)) eqn:Hu; [|apply Hsame].
  destruct (loading (app sys)) eqn:Hl; [apply Hsame|].
  destruct Hidle; congruence.
Qed.

Lemma step_inStep db a sys :
  online db = true -> deliversOldest a -> inStep db sys ->
  inStep db (step a sys).
Proof.
  intros Hon Ha Hsys. pose proof Hsys as [Hdb Hinv].
  destruct a as [u l|c|i].
  - (* the auth callback *)
    unfold step. destruct u as [u|]; [destruct l|].
    + apply loadEffect_idle; [done | by right|]. simpl.
      intros c r E. by rewrite E in Hinv.
    + by apply loadEffect_requests with u.
    + apply loadEffect_idle; [done | by left|]. simpl.
      intros c r E. by rewrite E in Hinv.
  - (* a city button *)
    unfold step.
    destruct (user (app sys)) as [u|] eqn:Hu; [|exact Hsys].
    destruct (loading (app sys)) eqn:Hl; [exact Hsys|]. simpl.
    destruct (city_eqb c (selectedCity (app sys))); [exact Hsys|].
    by apply loadEffect_requests with u.
  - (* the oldest response arrives *)
    simpl in Ha. subst i. unfold step.
    destruct (inflight sys) as [|p rest] eqn:E; [exact Hsys|].
    simpl.
    simpl in Hinv. destruct p as [c response|response].
    + destruct (lastEventsRequest rest) as [[c' r']|] eqn:Elast.
      * destruct response as [rows|]; simpl.
        -- split; [by rewrite filterEffect_store|].
           rewrite filterEffect_inflight, filterEffect_app. simpl.
           by rewrite Elast.
        -- split; [done|]. simpl. by rewrite Elast.
      * destruct Hinv as [-> ->]. rewrite (catalog_events_list db _ Hon).
        simpl. split; [by rewrite filterEffect_store|].
        rewrite filterEffect_inflight, filterEffect_app. simpl.
        by rewrite Elast.
    + assert (lastEventsRequest rest = lastEventsRequest (inflight sys)) as El.
      { rewrite E. simpl. by destruct (lastEventsRequest rest). }
      rewrite E in El. simpl in El.
      destruct response as [rows|]; simpl; (split; [done|]); simpl;
        by destruct (lastEventsRequest rest).
Qed.

Lemma run_snoc trace a sys : run (trace ++ [a]) sys = step a (run trace sys).
Proof. unfold run. by rewrite foldl_app. Qed.

Lemma mount_inStep db : inStep db (mount db).
Proof.
  unfold mount, inStep. rewrite filterEffect_store, filterEffect_inflight,
    filterEffect_app. simpl. split; [done|]. by intros H.
Qed.

Lemma run_inStep db trace :
  online db = true -> inOrder trace -> inStep db (run trace (mount db)).
Proof.
  intros Hon. induction trace as [|a trace IH] using rev_ind; intros Hord.
  - apply mount_inStep.
  - apply Forall_app in Hord as [Hord Ha]. rewrite run_snoc.
    apply step_inStep; [done | by inversion Ha | by apply IH].
Qed.

(** C10, as the code has it: every load that completes writes its result
    into the catalog, whatever city is selected by then, so the catalog is
    that of the load that completed last.  When the responses arrive in the
    order of the requests, a signed-in user with no events request in
    flight sees the catalog of the selected city. *)
Theorem C10_catalog_follows_completion_order :
  forall (db : Database) (trace : list Action),
    online db = true ->
    let sys := run trace (mount db) in
    (forall i c rows,
        inflight sys !! i = Some (PendingEvents c (Resolved rows)) ->
        events (app (step (Deliver i) sys)) = map formatEvent rows
        /\ selectedCity (app (step (Deliver i) sys)) = selectedCity (app sys))
    /\ (inOrder trace ->
        user (app sys) <> None -> loading (app sys) = false ->
        lastEventsRequest (inflight sys) = None ->
        events (app sys) = catalog db (selectedCity (app sys))).
Proof.
  intros db trace Hon sys. split.
  - intros i c rows E. by destruct (deliver_events sys i c rows E) as (? & ? & _).
  - intros Hord Hu Hl Hnone.
    destruct (run_inStep db trace Hon Hord) as [_ Hinv]. fold sys in Hinv.
    rewrite Hnone in Hinv. auto.
Qed.

(** Alice switches to Minneapolis and the responses arrive in order. *)
Lemma C10_catalog_follows_completion_order_witness :
  online Sample.db = true
  /\ events (app (run Sample.orderly (mount Sample.db))) =
     catalog Sample.db minneapolis.
Proof.
  split; [reflexivity|].
  apply (C10_catalog_follows_completion_order Sample.db Sample.orderly);
    [reflexivity | | discriminate | reflexivity | reflexivity].
  repeat constructor.
Defined.

(** C10, as stated, fails: alice switches from Chicago to Minneapolis, the
    response for Minneapolis arrives first and the one for Chicago after
    it; the late response overwrites the catalog, which is Chicago's while
    Minneapolis is selected. *)
Lemma C10_counterexample :
  selectedCity (app Sample.overtaken) = minneapolis
  /\ lastEventsRequest (inflight Sample.overtaken) = None
  /\ events (app Sample.overtaken) = catalog Sample.db chicago
  /\ events (app Sample.overtaken) <> catalog Sample.db minneapolis.
Proof.
  repeat split; try reflexivity. discriminate.
Qed.

(** ** The category universe *)

Lemma filter_ext_in {A} (P Q : A -> Prop)
    `{!forall x, Decision (P x)} `{!forall x, Decision (Q x)} (l : list A) :
  (forall x, x ∈ l -> (P x <-> Q x)) -> filter P l = filter Q l.
Proof.
  induction l as [|x l IH]; intros Hext; [done|].
  rewrite !filter_cons. rewrite IH by (intros y Hy; apply Hext; by right).
  destruct (decide (P x)) as [HP|HP], (decide (Q x)) as [HQ|HQ]; try done;
    exfalso; apply (Hext x (list_elem_of_here x l)) in HP || apply HP;
    tauto || (apply (Hext x (list_elem_of_here x l)); tauto).
Qed.

(** What [setOf] adds to [seen] are the elements of [setOf [] l] not yet
    seen. *)
Lemma setOf_seen l : forall seen,
  setOf seen l = seen ++ filter (fun y => y ∉ seen) (setOf [] l).
Proof.
  induction l as [|x l IH]; intros seen.
  - simpl. by rewrite app_nil_r.
  - cbn [setOf].
    change (if arrayIncludes [] x then [] else [] ++ [x]) with [x].
    rewrite (IH [x]), (IH (if arrayIncludes seen x then seen else seen ++ [x])).
    simpl. rewrite filter_cons.
    destruct (arrayIncludes seen x) eqn:E.
    + apply Is_true_true, arrayIncludes_spec in E.
      rewrite decide_False by tauto.
      f_equal. rewrite list_filter_filter. apply list_filter_iff.
      intros y. rewrite list_elem_of_singleton. split; [|tauto].
      intros Hy. split; [done | by intros ->].
    + apply Is_true_false in E. rewrite arrayIncludes_spec in E.
      rewrite decide_True by done.
      rewrite <- app_assoc. simpl. do 2 f_equal.
      rewrite list_filter_filter. apply list_filter_iff.
      intros y. rewrite elem_of_app, !list_elem_of_singleton. tauto.
Qed.

Lemma setOf_cons x l :
  setOf [] (x :: l) = x :: filter (fun y => y <> x) (setOf [] l).
Proof.
  cbn [setOf].
  change (if arrayIncludes [] x then [] else [] ++ [x]) with [x].
  rewrite (setOf_seen l [x]). simpl. f_equal.
  apply list_filter_iff. intros y. by rewrite list_elem_of_singleton.
Qed.

Lemma setOf_elem l x : x ∈ setOf [] l <-> x ∈ l.
Proof.
  induction l as [|y l IH]; [done|].
  rewrite setOf_cons, !elem_of_cons, list_elem_of_filter, IH.
  destruct (decide (x = y)); tauto.
Qed.

Lemma setOf_NoDup l : NoDup (setOf [] l).
Proof.
  induction l as [|y l IH]; [constructor|].
  rewrite setOf_cons. constructor.
  - rewrite list_elem_of_filter. tauto.
  - by apply NoDup_filter.
Qed.

Lemma setOf_sublist l : setOf [] l `sublist_of` l.
Proof.
  induction l as [|y l IH]; [done|].
  rewrite setOf_cons. constructor.
  etrans; [apply sublist_filter | done].
Qed.

(** X1: the categories offered in the filter sheet are the categories of
    the catalog, each once, in the order in which the catalog first shows
    them. *)
Theorem categories_distinct_in_catalog_order :
  forall st,
    NoDup (categories st)
    /\ (forall c, c ∈ categories st <-> exists e, e ∈ events st /\ category e = c)
    /\ categories st `sublist_of` map category (events st)
    /\ categories (setEvents [] st) = []
    /\ (forall e rest,
          categories (setEvents (e :: rest) st) =
          category e
            :: filter (fun c => c <> category e)
                 (categories (setEvents rest st))).
Proof.
  intros st. unfold categories. split; [apply setOf_NoDup|].
  split; [|split; [apply setOf_sublist | split; [done|]]].
  - intros c. rewrite setOf_elem, list_elem_of_In, in_map_iff.
    split; intros (e & H1 & H2); exists e.
    + by rewrite list_elem_of_In.
    + by rewrite <- list_elem_of_In.
  - intros e rest. simpl. apply setOf_cons.
Qed.

Lemma category_offered st e : e ∈ events st -> category e ∈ categories st.
Proof.
  intros He. unfold categories. rewrite setOf_elem, list_elem_of_In.
  apply in_map. by apply list_elem_of_In.
Qed.

(** X2: with every offered category checked the visible set is the one
    with no category checked. *)
Theorem all_categories_selected_is_no_restriction :
  forall st,
    (forall c, c ∈ categories st -> c ∈ selectedCategories st) ->
    visible st = visible (setSelectedCategories [] st).
Proof.
  intros st Hall. rewrite !visible_keeps. simpl.
  apply filter_ext_in. intros e He. unfold keeps. simpl.
  assert (categoryCallback (selectedCategories st) e) as Hc.
  { apply arrayIncludes_spec, Hall. by apply category_offered. }
  rewrite !andb_True, !orb_True. change (Is_true true) with True. tauto.
Qed.

Lemma all_categories_selected_is_no_restriction_witness :
  visible Scenario.allSelected =
  visible (setSelectedCategories [] Scenario.allSelected).
Proof.
  apply (all_categories_selected_is_no_restriction Scenario.allSelected).
  intros c Hc. apply list_elem_of_In in Hc. apply list_elem_of_In.
  vm_compute in Hc. vm_compute. tauto.
Defined.

(** ** The category checkboxes *)

Lemma unchecked_elem (c : string) (l : list string) (d : string) :
  d ∈ filter (fun x => negb (String.eqb x c)) l <-> d ∈ l /\ d <> c.
Proof.
  rewrite list_elem_of_filter, negb_True, Is_true_true, String.eqb_eq. tauto.
Qed.

Lemma clickCheckbox_elem c st :
  (c ∈ selectedCategories (clickCheckbox c st) <-> c ∉ selectedCategories st)
  /\ (forall d, d <> c ->
        (d ∈ selectedCategories (clickCheckbox c st)
         <-> d ∈ selectedCategories st)).
Proof.
  unfold clickCheckbox, onCheckedChange.
  destruct (arrayIncludes (selectedCategories st) c) eqn:E; simpl.
  - apply Is_true_true, arrayIncludes_spec in E.
    split; [rewrite unchecked_elem; tauto|].
    intros d Hd. rewrite unchecked_elem. tauto.
  - apply Is_true_false in E. rewrite arrayIncludes_spec in E.
    split; [rewrite elem_of_app, list_elem_of_singleton; tauto|].
    intros d Hd. rewrite elem_of_app, list_elem_of_singleton. tauto.
Qed.

(** X3: a click on a category's checkbox flips whether the category is
    selected, leaves every other category as it was, and never makes the
    selection hold a category twice. *)
Theorem checkbox_click_flips_one_category :
  forall c st,
    (c ∈ selectedCategories (clickCheckbox c st) <-> c ∉ selectedCategories st)
    /\ (forall d, d <> c ->
          (d ∈ selectedCategories (clickCheckbox c st)
           <-> d ∈ selectedCategories st))
    /\ (NoDup (selectedCategories st) ->
          NoDup (selectedCategories (clickCheckbox c st)))
    /\ (c ∉ selectedCategories (onCheckedChange c false st)).
Proof.
  intros c st. destruct (clickCheckbox_elem c st) as [Hflip Hrest].
  split; [done|]. split; [done|]. split.
  - intros Hnd. unfold clickCheckbox, onCheckedChange.
    destruct (arrayIncludes (selectedCategories st) c) eqn:E; simpl.
    + by apply NoDup_filter.
    + apply Is_true_false in E. rewrite arrayIncludes_spec in E.
      apply NoDup_app. split; [done|]. split; [|apply NoDup_singleton].
      intros x Hx. rewrite list_elem_of_singleton. by intros ->.
  - unfold onCheckedChange. simpl. rewrite unchecked_elem. tauto.
Qed.

(** The visible set depends on which categories are selected, not on their
    order or number of occurrences. *)
Lemma visible_same_selection st cats cats' :
  (forall x, x ∈ cats <-> x ∈ cats') ->
  visible (setSelectedCategories cats st) =
  visible (setSelectedCategories cats' st).
Proof.
  intros Heq. rewrite !visible_keeps. simpl. apply list_filter_iff.
  intros e. unfold keeps. simpl. unfold categoryCallback.
  assert ((0 <? length cats)%nat = (0 <? length cats')%nat) as ->.
  { destruct cats as [|a cats], cats' as [|b cats']; try done.
    - exfalso. eapply elem_of_nil, Heq. left.
    - exfalso. eapply elem_of_nil, Heq. left. }
  rewrite !andb_True, !orb_True, !arrayIncludes_spec, Heq. tauto.
Qed.

Lemma visible_own_selection st :
  visible (setSelectedCategories (selectedCategories st) st) = visible st.
Proof. by rewrite !visible_passes. Qed.

(** X4: two clicks on the same checkbox bring back the visible set. *)
Theorem checkbox_double_click_restores_visible :
  forall c st, visible (clickCheckbox c (clickCheckbox c st)) = visible st.
Proof.
  intros c st. rewrite <- (visible_own_selection st).
  destruct (clickCheckbox_elem c st) as [H1 H2].
  destruct (clickCheckbox_elem c (clickCheckbox c st)) as [H3 H4].
  assert (forall x, x ∈ selectedCategories (clickCheckbox c (clickCheckbox c st))
                    <-> x ∈ selectedCategories st) as Heq.
  { intros x. destruct (decide (x = c)) as [->|Hne].
    - rewrite H3, H1. destruct (decide (c ∈ selectedCategories st)); tauto.
    - by rewrite H4, H2. }
  rewrite <- (visible_same_selection st _ _ Heq).
  unfold clickCheckbox, onCheckedChange.
  repeat match goal with |- context [if ?b then _ else _] => destruct b end;
    by rewrite !visible_passes.
Qed.

(** X5: once a category is selected, selecting more categories never hides
    an event; in particular checking another box keeps every visible event
    visible. *)
Theorem wider_selection_is_monotone :
  forall st cats',
    selectedCategories st <> [] ->
    (forall x, x ∈ selectedCategories st -> x ∈ cats') ->
    visible st `sublist_of` visible (setSelectedCategories cats' st)
    /\ (forall c, visible st `sublist_of` visible (onCheckedChange c true st)).
Proof.
  intros st cats' Hne Hsub.
  assert (forall cats, (forall x, x ∈ selectedCategories st -> x ∈ cats) ->
            visible st `sublist_of` visible (setSelectedCategories cats st))
    as Hmono.
  { intros cats Hcats. rewrite !visible_keeps. simpl.
    apply filter_weaken_sublist. intros e _. unfold keeps. simpl.
    destruct (selectedCategories st) as [|a l] eqn:E; [done|].
    replace (0 <? length (a :: l))%nat with true by done.
    unfold categoryCallback.
    rewrite !andb_True, !orb_True, !arrayIncludes_spec.
    intros (((Hq & [[]|Hc]) & Hcost) & Hdur). auto 10. }
  split; [by apply Hmono|].
  intros c. unfold onCheckedChange. apply Hmono.
  intros x Hx. apply elem_of_app. by left.
Qed.

Lemma wider_selection_is_monotone_witness :
  visible Scenario.foodOnly
    `sublist_of` visible (setSelectedCategories ["Food"; "Sports"] Scenario.foodOnly)
  /\ (forall c, visible Scenario.foodOnly
                  `sublist_of` visible (onCheckedChange c true Scenario.foodOnly)).
Proof.
  apply (wider_selection_is_monotone Scenario.foodOnly ["Food"; "Sports"]).
  - discriminate.
  - intros x Hx. apply list_elem_of_In in Hx. apply list_elem_of_In.
    simpl in *. tauto.
Defined.

(** X6: after "Clear Filters" the visible set is the one a freshly mounted
    component shows for the same catalog: the events whose cost lies in
    [0, 100] and whose duration lies in [0, 5], so an event outside these
    ranges stays hidden.  The cost of a text field is the double the text
    denotes: the cost [100.00000000000000001] is 100 and is shown.  The
    catalog, the favorites, the open event and the user are untouched. *)
Theorem clear_filters_resets_to_defaults :
  forall st,
    visible (clearFilters st) = visible (setEvents (events st) initialState)
    /\ (forall e,
          e ∈ visible (clearFilters st) <->
          e ∈ events st
          /\ inRange [Finite 0; Finite 100] (Number (costPerPerson e))
          /\ inRange [Finite 0; Finite 5] (Number (durationHours e)))
    /\ clearFilters (clearFilters st) = clearFilters st
    /\ events (clearFilters st) = events st
    /\ favorites (clearFilters st) = favorites st
    /\ selectedEvent (clearFilters st) = selectedEvent st
    /\ user (clearFilters st) = user st
    /\ visible (clearFilters (setEvents [Sample.borderline] st))
       = [Sample.borderline].
Proof.
  intros st. split; [by rewrite !visible_passes|].
  split; [intros e; rewrite visible_elem; simpl; tauto|].
  repeat (split; [done|]).
  rewrite !visible_passes. vm_compute. reflexivity.
Qed.

(** ** More on the filter engine *)

(** X8: filtering is idempotent: the visible set, taken as the catalog,
    is its own visible set under the same filter state. *)
Theorem filtering_is_idempotent :
  forall st, visible (setEvents (visible st) st) = visible st.
Proof.
  intros st. rewrite (visible_keeps (setEvents _ _)). simpl.
  rewrite visible_keeps, list_filter_filter. apply list_filter_iff.
  intros e. change (keeps (setEvents (filter (keeps st) (events st)) st) e)
    with (keeps st e). tauto.
Qed.

(** X9: the order of the four passes does not matter: the visible set is
    one pass with the conjunction of the four tests, and running the
    passes in the opposite order gives the same list. *)
Theorem passes_commute :
  forall st,
    visible st = filter (keeps st) (events st)
    /\ visible st =
       searchStep (searchQuery st)
         (categoryStep (selectedCategories st)
            (filter (costPasses (costRange st))
               (filter (durationPasses (durationRange st)) (events st)))).
Proof.
  intros st. split; [apply visible_keeps|].
  rewrite visible_keeps, searchStep_keeps, categoryStep_keeps.
  rewrite !list_filter_filter. apply list_filter_iff. intros e.
  unfold keeps. rewrite !andb_True. tauto.
Qed.

Lemma filterC_snd {A} (f : A -> Console bool) (l : list A) :
  snd (filterC f l) = concat (map (fun x => snd (f x)) l).
Proof.
  induction l as [|x l IH]; [done|].
  simpl. rewrite !snd_bind. simpl. by rewrite app_nil_r, IH.
Qed.

Lemma costCallback_line range e :
  snd (costCallback range e) =
  if decide (~ costPasses range e) then [costRejection range e] else [].
Proof.
  rewrite costCallback_snd. unfold costRejection.
  destruct (costPasses range e).
  - rewrite decide_False; [done|]. intros H. by apply H.
  - rewrite decide_True; [done | by intros ?].
Qed.

Lemma durationCallback_line range e :
  snd (durationCallback range e) =
  if decide (~ durationPasses range e) then [durationRejection range e] else [].
Proof.
  rewrite durationCallback_snd. unfold durationRejection.
  destruct (durationPasses range e).
  - rewrite decide_False; [done|]. intros H. by apply H.
  - rewrite decide_True; [done | by intros ?].
Qed.

Lemma filter_split_length {A} (P : A -> Prop) `{!forall x, Decision (P x)}
    (l : list A) :
  (length (filter P l) + length (filter (fun x => ~ P x) l) = length l)%nat.
Proof.
  induction l as [|x l IH]; [done|].
  rewrite !filter_cons. destruct (decide (P x)).
  - rewrite decide_False by tauto. simpl. lia.
  - rewrite decide_True by done. simpl. lia.
Qed.

Lemma cost_lines range l :
  snd (filterC (costCallback range) l) =
  map (costRejection range) (filter (fun e => ~ costPasses range e) l).
Proof.
  rewrite filterC_snd. induction l as [|e l IH]; [done|].
  simpl. rewrite IH, costCallback_line, filter_cons.
  by destruct (decide (~ costPasses range e)).
Qed.

Lemma duration_lines range l :
  snd (filterC (durationCallback range) l) =
  map (durationRejection range)
    (filter (fun e => ~ durationPasses range e) l).
Proof.
  rewrite filterC_snd. induction l as [|e l IH]; [done|].
  simpl. rewrite IH, durationCallback_line, filter_cons.
  by destruct (decide (~ durationPasses range e)).
Qed.

(** X10: the cost pass writes one console line for each event it rejects,
    in catalog order, and none for an event it keeps; so does the duration
    pass.  Kept events and rejection lines add up to the events the pass
    was given. *)
Theorem rejections_are_logged_once :
  forall range l,
    snd (filterC (costCallback range) l) =
      map (costRejection range) (filter (fun e => ~ costPasses range e) l)
    /\ snd (filterC (durationCallback range) l) =
      map (durationRejection range)
        (filter (fun e => ~ durationPasses range e) l)
    /\ (length (fst (filterC (costCallback range) l))
        + length (snd (filterC (costCallback range) l)) = length l)%nat
    /\ (length (fst (filterC (durationCallback range) l))
        + length (snd (filterC (durationCallback range) l)) = length l)%nat.
Proof.
  intros range l.
  split; [apply cost_lines|]. split; [apply duration_lines|]. split.
  - rewrite cost_lines, filterC_cost, length_map. apply filter_split_length.
  - rewrite duration_lines, filterC_duration, length_map.
    apply filter_split_length.
Qed.

(** ** The component as a transition system, continued *)

Lemma loadEffect_app sys : app (loadEffect sys) = app sys.
Proof.
  unfold loadEffect. destruct (user (app sys)); [|done].
  by destruct (loading (app sys)).
Qed.

Lemma visible_frame st st' :
  events st = events st' -> searchQuery st = searchQuery st' ->
  selectedCategories st = selectedCategories st' ->
  costRange st = costRange st' -> durationRange st = durationRange st' ->
  visible st = visible st'.
Proof.
  intros E1 E2 E3 E4 E5. by rewrite !visible_passes, E1, E2, E3, E4, E5.
Qed.

Lemma step_shown a sys :
  filteredEvents (app sys) = visible (app sys) ->
  filteredEvents (app (step a sys)) = visible (app (step a sys)).
Proof.
  intros Hs. destruct a as [u l|c|i]; unfold step.
  - rewrite loadEffect_app. simpl. rewrite Hs. by apply visible_frame.
  - destruct (user (app sys)); [|done].
    destruct (loading (app sys) || city_eqb c (selectedCity (app sys)));
      [done|].
    rewrite loadEffect_app. simpl. rewrite Hs. by apply visible_frame.
  - destruct (inflight sys !! i) as [[c [rows|]|[rows|]]|]; simpl; try done.
    + rewrite filterEffect_app. simpl. by apply visible_frame.
    + rewrite Hs. by apply visible_frame.
Qed.

(** X11: the list on display is never stale: after every auth change,
    city switch and arriving response, [filteredEvents] is the visible set
    of the catalog and filter state the component holds. *)
Theorem displayed_list_is_current :
  forall (db : Database) (trace : list Action),
    filteredEvents (app (run trace (mount db))) =
    visible (app (run trace (mount db))).
Proof.
  intros db trace. induction trace as [|a trace IH] using rev_ind.
  - change (run [] (mount db)) with (mount db).
    unfold mount. rewrite filterEffect_app. simpl.
    by apply visible_frame.
  - rewrite run_snoc. by apply step_shown.
Qed.

(** X12: neither an auth change, nor a city switch, nor an arriving
    response touches the search query, the selected categories, the two
    ranges or the open event: switching city does not reset the filters,
    and a category selected for the old catalog stays selected. *)
Theorem steps_keep_filters_and_selection :
  forall a sys,
    searchQuery (app (step a sys)) = searchQuery (app sys)
    /\ selectedCategories (app (step a sys)) = selectedCategories (app sys)
    /\ costRange (app (step a sys)) = costRange (app sys)
    /\ durationRange (app (step a sys)) = durationRange (app sys)
    /\ selectedEvent (app (step a sys)) = selectedEvent (app sys)
    /\ store (step a sys) = store sys.
Proof.
  intros a sys. rewrite step_store.
  destruct a as [u l|c|i]; unfold step.
  - by rewrite loadEffect_app.
  - destruct (user (app sys)); [|done].
    destruct (loading (app sys) || city_eqb c (selectedCity (app sys)));
      [done|].
    by rewrite loadEffect_app.
  - destruct (inflight sys !! i) as [[c [rows|]|[rows|]]|]; simpl; try done.
    by rewrite filterEffect_app.
Qed.

(** X13: a load whose request is rejected leaves the component state as it
    was, the catalog and favorites it had included, and writes one error
    line to the console. *)
Theorem failed_load_keeps_state :
  forall sys i p,
    inflight sys !! i = Some p ->
    rejected p = true ->
    app (step (Deliver i) sys) = app sys
    /\ inflight (step (Deliver i) sys) = delete i (inflight sys)
    /\ exists m,
         console (step (Deliver i) sys) =
         console sys ++ [{| level := LevelError; message := m |}].
Proof.
  intros sys i p Hp Hr. unfold step. rewrite Hp.
  destruct p as [c [rows|]|[rows|]]; try discriminate; simpl;
    repeat split; eauto.
Qed.

Lemma failed_load_keeps_state_witness :
  app (step (Deliver 0) Scenario.stranded) = app Scenario.stranded
  /\ inflight (step (Deliver 0) Scenario.stranded) =
     delete 0%nat (inflight Scenario.stranded)
  /\ exists m,
       console (step (Deliver 0) Scenario.stranded) =
       console Scenario.stranded ++ [{| level := LevelError; message := m |}].
Proof.
  apply (failed_load_keeps_state Scenario.stranded 0
           (PendingEvents chicago Rejected)); reflexivity.
Defined.

(** ** Loading, continued *)

Lemma favoriteMatches_user uid r :
  favoriteMatches uid None r <-> userId r = uid.
Proof.
  unfold favoriteMatches.
  rewrite andb_True, !Is_true_true, String.eqb_eq. tauto.
Qed.

Lemma favorite_ids_elem (uid : string) (rows : list FavoriteRecord) eid :
  eid ∈ (list_to_set (map eventId (filter (favoriteMatches uid None) rows))
         : gset string) <->
  exists r, r ∈ rows /\ userId r = uid /\ eventId r = eid.
Proof.
  rewrite elem_of_list_to_set, list_elem_of_In, in_map_iff. split.
  - intros (r & He & Hr). apply list_elem_of_In, list_elem_of_filter in Hr.
    destruct Hr as [Hm Hr]. apply favoriteMatches_user in Hm. eauto.
  - intros (r & Hr & Hm & He). exists r. split; [done|].
    apply list_elem_of_In, list_elem_of_filter.
    split; [by apply favoriteMatches_user | done].
Qed.

(** X15: a load of the favorites that succeeds replaces the set, whatever
    it held, by exactly the events the signed-in user has a record for. *)
Theorem loaded_favorites_are_the_users :
  forall db st u,
    user st = Some u ->
    online db = true ->
    (forall eid,
        eid ∈ favorites (fst (loadFavorites db st)) <->
        exists r, r ∈ favoriteRows db /\ userId r = user_id u /\ eventId r = eid)
    /\ snd (loadFavorites db st) = [].
Proof.
  intros db st u Hu Hon.
  unfold loadFavorites, loadFavorites_request, favorites_list.
  rewrite Hu, Hon. simpl. split; [|done].
  intros eid. apply favorite_ids_elem.
Qed.

Lemma loaded_favorites_are_the_users_witness :
  (forall eid,
      eid ∈ favorites (fst (loadFavorites Sample.db (app Sample.handover))) <->
      exists r, r ∈ favoriteRows Sample.db
                /\ userId r = user_id Sample.bob /\ eventId r = eid)
  /\ snd (loadFavorites Sample.db (app Sample.handover)) = [].
Proof.
  apply (loaded_favorites_are_the_users Sample.db (app Sample.handover)
           Sample.bob); reflexivity.
Defined.

(** ** [toggleFavorite], continued *)

(** X16: while the store cannot be reached a toggle changes nothing: the
    favorites set and the store stay as they were, one call is attempted
    and fails, and one error line is written. *)
Theorem unreachable_store_toggle_changes_nothing :
  forall now eid st db u,
    user st = Some u ->
    online db = false ->
    let o := toggleFavorite now eid st db in
    out_state o = st
    /\ out_db o = db
    /\ length (out_calls o) = 1%nat
    /\ out_console o = failedToggle.
Proof.
  intros now eid st db u Hu Hoff. unfold toggleFavorite.
  rewrite Hu. unfold favorites_list, favorites_create. rewrite Hoff.
  by destruct (bool_decide (eid ∈ favorites st)).
Qed.

Lemma unreachable_store_toggle_changes_nothing_witness :
  let o := toggleFavorite 1 "c1" (app Sample.settled) Scenario.offline in
  out_state o = app Sample.settled
  /\ out_db o = Scenario.offline
  /\ length (out_calls o) = 1%nat
  /\ out_console o = failedToggle.
Proof.
  apply (unreachable_store_toggle_changes_nothing 1 "c1" (app Sample.settled)
           Scenario.offline Sample.alice); reflexivity.
Defined.

Lemma setFavorites_same st : setFavorites (fun _ => favorites st) st = st.
Proof. by destruct st. Qed.

Lemma toggle_keeps_user now eid st db :
  user (out_state (toggleFavorite now eid st db)) = user st
  /\ online (out_db (toggleFavorite now eid st db)) = online db.
Proof.
  unfold toggleFavorite, favorites_list, favorites_delete, favorites_create.
  destruct (user st) eqn:Hu; [|simpl; by rewrite Hu].
  destruct (bool_decide (eid ∈ favorites st)), (online db) eqn:Hon; simpl;
    rewrite ?Hu, ?Hon; try done.
  destruct (filter _ (favoriteRows db)) as [|r rest]; simpl;
    rewrite ?Hu, ?Hon; [done|].
  destruct (existsb _ (favoriteRows db)); simpl; by rewrite ?Hu, ?Hon.
Qed.

(** X17: a toggle touches nothing but the one event in the favorites set:
    every other event stays in or out of the set, the rest of the
    component state and the events of the store are as before; with
    nobody signed in it does nothing at all and calls nothing. *)
Theorem toggle_touches_one_favorite :
  forall now eid st db,
    let o := toggleFavorite now eid st db in
    (forall x, x <> eid -> (x ∈ favorites (out_state o) <-> x ∈ favorites st))
    /\ out_state o = setFavorites (fun _ => favorites (out_state o)) st
    /\ eventRows (out_db o) = eventRows db
    /\ online (out_db o) = online db
    /\ (user st = None ->
          out_state o = st /\ out_db o = db /\ out_calls o = []
          /\ out_console o = []).
Proof.
  intros now eid st db. unfold toggleFavorite.
  destruct (user st) as [u|] eqn:Hu;
    [|by rewrite setFavorites_same].
  assert (forall x X, x <> eid ->
            (x ∈ (X : gset string) ∖ {[eid]} <-> x ∈ X)) as Hrem.
  { intros x X Hx. rewrite elem_of_difference, elem_of_singleton. tauto. }
  assert (forall x X, x <> eid ->
            (x ∈ (X : gset string) ∪ {[eid]} <-> x ∈ X)) as Hadd.
  { intros x X Hx. rewrite elem_of_union, elem_of_singleton. tauto. }
  unfold favorites_list, favorites_delete, favorites_create.
  destruct (bool_decide (eid ∈ favorites st)), (online db) eqn:Hon; simpl.
  - destruct (filter _ (favoriteRows db)) as [|r rest]; simpl.
    + repeat split; try done; by apply Hrem.
    + destruct (existsb _ (favoriteRows db)); simpl;
        repeat split; try done;
        by apply Hrem || by rewrite setFavorites_same.
  - repeat split; try done. by rewrite setFavorites_same.
  - repeat split; try done; by apply Hadd.
  - repeat split; try done. by rewrite setFavorites_same.
Qed.

Lemma NoDup_map_inj {A B} (f : A -> B) (l : list A) x y :
  NoDup (map f l) -> x ∈ l -> y ∈ l -> f x = f y -> x = y.
Proof.
  induction l as [|a l IH]; intros Hnd Hx Hy E; [by apply elem_of_nil in Hx|].
  simpl in Hnd. apply NoDup_cons in Hnd as [Ha Hnd].
  assert (forall z, z ∈ l -> f z <> f a) as Hne.
  { intros z Hz Ez. apply Ha. rewrite <- Ez.
    apply list_elem_of_In, in_map. by apply list_elem_of_In. }
  apply elem_of_cons in Hx as [->|Hx]; apply elem_of_cons in Hy as [->|Hy].
  - done.
  - exfalso. by apply (Hne y Hy).
  - exfalso. by apply (Hne x Hx).
  - by apply IH.
Qed.

Lemma sublist_map {A B} (f : A -> B) (l1 l2 : list A) :
  l1 `sublist_of` l2 -> map f l1 `sublist_of` map f l2.
Proof. induction 1; simpl; by constructor. Qed.

Lemma freshId_fresh rows : freshId rows ∉ map fav_id rows.
Proof.
  unfold freshId.
  assert (forall n, n ∈ map fav_id rows ->
            (n <= foldr Nat.max 0 (map fav_id rows))%nat) as Hmax.
  { induction (map fav_id rows) as [|a l IH]; intros n Hn;
      [by apply elem_of_nil in Hn|].
    simpl. apply elem_of_cons in Hn as [->|Hn]; [lia|].
    specialize (IH n Hn). lia. }
  intros H. apply Hmax in H. lia.
Qed.

Lemma ownedBy_spec u r : ownedBy u r <-> userId r = user_id u.
Proof. unfold ownedBy. by rewrite Is_true_true, String.eqb_eq. Qed.

Lemma toggle_preserves_inSync now eid st db u :
  user st = Some u ->
  inSync u st db ->
  inSync u (out_state (toggleFavorite now eid st db))
    (out_db (toggleFavorite now eid st db)).
Proof.
  intros Hu (Hids & Hone & Hset).
  set (o := toggleFavorite now eid st db).
  destruct (online db) eqn:Hon; cycle 1.
  { assert (out_state o = st /\ out_db o = db) as [-> ->]; [|done].
    unfold o, toggleFavorite, favorites_list, favorites_create.
    rewrite Hu, Hon. by destruct (bool_decide (eid ∈ favorites st)). }
  destruct (decide (eid ∈ favorites st)) as [Hin|Hout].
  - (* the event is taken out and its record deleted *)
    destruct (backed_rows (user_id u) eid (favoriteRows db)) as (r & rest & E);
      [by apply Hset|].
    destruct (toggle_remove now eid st db u r rest Hu Hon Hin E)
      as (Hst & Hcalls & _ & _ & _).
    fold o in Hst, Hcalls.
    assert (r ∈ favoriteRows db /\ userId r = user_id u /\ eventId r = eid)
      as (Hr & Hru & Hre).
    { assert (r ∈ filter (favoriteMatches (user_id u) (Some eid))
                     (favoriteRows db)) as Hrf by (rewrite E; left).
      apply list_elem_of_filter in Hrf as [Hm Hr].
      apply favoriteMatches_spec in Hm. tauto. }
    assert (favoriteRows (out_db o) = removeById (fav_id r) (favoriteRows db))
      as Hrows.
    { unfold o, toggleFavorite, favorites_list, favorites_delete.
      rewrite Hu, (bool_decide_eq_true_2 _ Hin), Hon, E.
      by rewrite (existsb_fav_id r _ Hr). }
    unfold inSync. rewrite Hrows, Hst. simpl.
    pose proof (removeById_sublist (fav_id r) (favoriteRows db)) as Hsub.
    split.
    { apply sublist_NoDup with (map fav_id (favoriteRows db)); [done|].
      by apply sublist_map. }
    split.
    { apply sublist_NoDup
        with (map eventId (filter (ownedBy u) (favoriteRows db))); [done|].
      by apply sublist_map, sublist_filter_mono. }
    intros x. rewrite elem_of_difference, elem_of_singleton, Hset. split.
    + intros [(r' & Hr' & Hu' & He') Hne]. exists r'. split; [|done].
      apply removeById_keeps; [done|]. intros Eid.
      assert (r' = r) by (by apply (NoDup_map_inj fav_id (favoriteRows db))).
      congruence.
    + intros (r' & Hr' & Hu' & He').
      assert (r' ∈ favoriteRows db) as Hr''
        by (by apply (sublist_subseteq _ _ Hsub)).
      split; [eauto|]. intros ->.
      apply (removeById_drops _ _ _ Hids Hr').
      f_equal.
      apply (NoDup_map_inj eventId (filter (ownedBy u) (favoriteRows db)));
        [done | | | congruence];
        apply list_elem_of_filter; split; try done; by apply ownedBy_spec.
  - (* the event is added and a record created *)
    destruct (toggle_add now eid st db u Hu Hon Hout)
      as (Hst & Hcalls & _ & Hrows & _).
    fold o in Hst, Hcalls, Hrows.
    unfold inSync. rewrite Hrows, Hst. simpl.
    split.
    { rewrite map_app. simpl. apply NoDup_app. split; [done|].
      split; [|apply NoDup_singleton].
      intros x Hx. rewrite list_elem_of_singleton. intros ->.
      by apply (freshId_fresh (favoriteRows db)). }
    split.
    { rewrite filter_app, map_app. simpl.
      rewrite filter_cons_True by (by apply ownedBy_spec).
      rewrite filter_nil. simpl. apply NoDup_app. split; [done|].
      split; [|apply NoDup_singleton].
      intros x Hx. rewrite list_elem_of_singleton. intros ->.
      apply Hout, Hset.
      apply list_elem_of_In, in_map_iff in Hx as (r' & He' & Hr').
      apply list_elem_of_In, list_elem_of_filter in Hr' as [Hu' Hr'].
      apply ownedBy_spec in Hu'. eauto. }
    intros x. rewrite elem_of_union, elem_of_singleton, Hset. split.
    + intros [(r' & Hr' & Hu' & He')| ->].
      * exists r'. split; [apply elem_of_app; by left | done].
      * eexists. split; [apply elem_of_app; right; left | done].
    + intros (r' & Hr' & Hu' & He').
      apply elem_of_app in Hr' as [Hr'|Hr'].
      * left. eauto.
      * right. apply list_elem_of_singleton in Hr'. by subst.
Qed.


(** Two records of one user for one event are not in agreement with any
    set. *)
Lemma double_record_out_of_sync u st db rows (x y : FavoriteRecord) :
  favoriteRows db = rows ++ [x; y] ->
  userId x = user_id u -> userId y = user_id u -> eventId x = eventId y ->
  ~ inSync u st db.
Proof.
  intros Hrows Hx Hy Hxy (_ & Hnd & _). rewrite Hrows in Hnd.
  assert (ownedBy u x) as Hox
    by (unfold ownedBy; rewrite Hx; apply Is_true_true, String.eqb_refl).
  assert (ownedBy u y) as Hoy
    by (unfold ownedBy; rewrite Hy; apply Is_true_true, String.eqb_refl).
  rewrite filter_app, (filter_cons_True _ x [y]) in Hnd by done.
  rewrite (filter_cons_True _ y []) in Hnd by done.
  rewrite map_app in Hnd. apply NoDup_app in Hnd as (_ & _ & Hnd).
  simpl in Hnd. apply NoDup_cons in Hnd as [Hnot _].
  apply Hnot. rewrite Hxy. left.
Qed.

(** X18: a toggle that runs from its click to its end with no other toggle
    in between keeps the favorites set and the store in agreement: record
    ids stay unique, the user still has at most one record per event, and
    the set still holds exactly the events the user has a record for; with
    the store reachable such a toggle makes exactly one write.  Two clicks
    on an event outside the set, the second before the first toggle has
    its answer, break the agreement: the user then has two records for the
    event. *)
Theorem toggle_keeps_set_and_store_in_sync :
  forall now eid st db u,
    user st = Some u ->
    inSync u st db ->
    let o := toggleFavorite now eid st db in
    inSync u (out_state o) (out_db o)
    /\ (online db = true -> writes o = 1%nat)
    /\ sofar (settle 0 (settle 0 (click now eid (startSession st db)))) = o
    /\ (forall now',
          online db = true -> eid ∉ favorites st ->
          let twice :=
            settle 0 (settle 0
              (click now' eid (click now eid (startSession st db)))) in
          running twice = []
          /\ ~ inSync u (out_state (sofar twice)) (out_db (sofar twice))).
Proof.
  intros now eid st db u Hu Hsync o.
  split; [by apply toggle_preserves_inSync|].
  split.
  { intros Hon. destruct Hsync as (_ & _ & Hset). unfold writes.
    destruct (decide (eid ∈ favorites st)) as [Hin|Hout].
    - destruct (backed_rows (user_id u) eid (favoriteRows db))
        as (r & rest & E); [by apply Hset|].
      destruct (toggle_remove now eid st db u r rest Hu Hon Hin E)
        as (_ & Hcalls & _).
      fold o in Hcalls. by rewrite Hcalls.
    - destruct (toggle_add now eid st db u Hu Hon Hout) as (_ & Hcalls & _).
      fold o in Hcalls. by rewrite Hcalls. }
  split; [apply toggle_uninterrupted|].
  intros now' Hon Hout twice.
  destruct (double_click now now' eid st db u Hu Hon Hout)
    as (Hrun & _ & _ & _ & Hrows).
  split; [exact Hrun|].
  by eapply double_record_out_of_sync.
Qed.

Lemma toggle_keeps_set_and_store_in_sync_witness :
  let o := toggleFavorite 1 "c1" (app Sample.settled) Sample.db in
  inSync Sample.alice (out_state o) (out_db o)
  /\ (online Sample.db = true -> writes o = 1%nat)
  /\ sofar (settle 0 (settle 0
              (click 1 "c1" (startSession (app Sample.settled) Sample.db))))
     = o
  /\ (forall now',
        online Sample.db = true -> "c1" ∉ favorites (app Sample.settled) ->
        let twice :=
          settle 0 (settle 0
            (click now' "c1"
               (click 1 "c1" (startSession (app Sample.settled) Sample.db)))) in
        running twice = []
        /\ ~ inSync Sample.alice (out_state (sofar twice))
                    (out_db (sofar twice))).
Proof.
  apply (toggle_keeps_set_and_store_in_sync 1 "c1" (app Sample.settled)
           Sample.db Sample.alice); [reflexivity|].
  split; [|split].
  - simpl. apply NoDup_singleton.
  - simpl. apply NoDup_singleton.
  - apply (favorite_ids_elem "alice" (favoriteRows Sample.db)).
Defined.


(** ** Further edges *)

Lemma step_idle a sys :
  noSignIn a ->
  inflight sys = [] -> events (app sys) = [] -> favorites (app sys) = ∅ ->
  screen (app sys) <> MainScreen ->
  inflight (step a sys) = [] /\ events (app (step a sys)) = []
  /\ favorites (app (step a sys)) = ∅ /\ screen (app (step a sys)) <> MainScreen.
Proof.
  intros Ha Hin Hev Hfav Hscr. unfold screen in Hscr.
  destruct a as [u l|c|i].
  - destruct u as [u|], l; try done;
      unfold step, loadEffect, screen; simpl; by rewrite ?Hin.
  - unfold step, screen.
    destruct (user (app sys)) eqn:Hu, (loading (app sys)) eqn:Hl; simpl;
      rewrite ?Hu, ?Hl; done.
  - unfold step. by rewrite Hin.
Qed.

(** X20: nothing is fetched before a user is signed in: as long as no auth
    notification brings a user with loading over, no request is in flight,
    the catalog and the favorites are empty and the main screen is not
    shown, whatever else happens. *)
Theorem nothing_is_loaded_before_sign_in :
  forall (db : Database) (trace : list Action),
    Forall noSignIn trace ->
    inflight (run trace (mount db)) = []
    /\ events (app (run trace (mount db))) = []
    /\ favorites (app (run trace (mount db))) = ∅
    /\ screen (app (run trace (mount db))) <> MainScreen.
Proof.
  intros db trace. induction trace as [|a trace IH] using rev_ind; intros Hn.
  - change (run [] (mount db)) with (mount db). unfold mount.
    rewrite filterEffect_inflight, filterEffect_app. by repeat split.
  - apply Forall_app in Hn as [Hn Ha]. rewrite run_snoc.
    destruct (IH Hn) as (H1 & H2 & H3 & H4).
    apply step_idle; try done. by inversion Ha.
Qed.

Lemma nothing_is_loaded_before_sign_in_witness :
  inflight (run Scenario.anonymous (mount Sample.db)) = []
  /\ events (app (run Scenario.anonymous (mount Sample.db))) = []
  /\ favorites (app (run Scenario.anonymous (mount Sample.db))) = ∅
  /\ screen (app (run Scenario.anonymous (mount Sample.db))) <> MainScreen.
Proof.
  apply (nothing_is_loaded_before_sign_in Sample.db Scenario.anonymous).
  repeat constructor.
Defined.

(** X22: a range whose lower bound is not below or equal to its upper
    bound shows nothing: an inverted range, a range with a bound missing
    from the array, a range with [NaN] for a bound. *)
Theorem empty_range_shows_nothing :
  forall st,
    ~ num_le (at_index (costRange st) 0) (at_index (costRange st) 1)
    \/ ~ num_le (at_index (durationRange st) 0) (at_index (durationRange st) 1) ->
    visible st = [].
Proof.
  intros st Hempty. apply elem_of_nil_inv. intros e He.
  apply visible_elem in He as (_ & _ & _ & [Hc0 Hc1] & [Hd0 Hd1]).
  destruct Hempty as [H|H]; apply H; eauto using num_le_trans.
Qed.

Lemma empty_range_shows_nothing_witness : visible Scenario.inverted = [].
Proof.
  apply (empty_range_shows_nothing Scenario.inverted).
  left. simpl. intros H. inversion H as [p q Hle| |]; subst.
  unfold Qle in Hle. simpl in Hle. lia.
Defined.

(** X23: a reload after a toggle confirms the local set: when the set and
    the store agree and the store can be reached, loading the favorites
    right after a toggle gives the set the toggle left. *)
Theorem reload_after_toggle_confirms_set :
  forall now eid st db u,
    user st = Some u ->
    online db = true ->
    inSync u st db ->
    let o := toggleFavorite now eid st db in
    favorites (fst (loadFavorites (out_db o) (out_state o))) =
    favorites (out_state o).
Proof.
  intros now eid st db u Hu Hon Hsync o.
  destruct (toggle_preserves_inSync now eid st db u Hu Hsync)
    as (_ & _ & Hset).
  fold o in Hset.
  destruct (toggle_keeps_user now eid st db) as [Hu' Hon'].
  fold o in Hu', Hon'. rewrite Hu in Hu'. rewrite Hon in Hon'.
  unfold loadFavorites, loadFavorites_request, favorites_list.
  rewrite Hu', Hon'. simpl.
  apply set_eq. intros x. by rewrite favorite_ids_elem, Hset.
Qed.

Lemma reload_after_toggle_confirms_set_witness :
  let o := toggleFavorite 1 "m1" (app Sample.settled) Sample.db in
  favorites (fst (loadFavorites (out_db o) (out_state o))) =
  favorites (out_state o).
Proof.
  apply (reload_after_toggle_confirms_set 1 "m1" (app Sample.settled)
           Sample.db Sample.alice); [reflexivity | reflexivity |].
  split; [|split].
  - simpl. apply NoDup_singleton.
  - simpl. apply NoDup_singleton.
  - apply (favorite_ids_elem "alice" (favoriteRows Sample.db)).
Defined.
